(** * Move! -- collaborative Klotski: board model, move resolver and session
      state machine of [src/index.tsx], embedded in Rocq.

    Numbers of the source that hold board cells, identifiers, streaks and
    timestamps are integers there and are [Z] here.  The position a drag
    has moved a piece to, a finite double, is the rational [Q] it denotes.
    The record of players ([Record<string, Player>]) is a finite map over
    strings for its own properties, with the properties every object
    inherits listed beside it. *)

From Stdlib Require Import ZArith QArith Qround Lia List Permutation.
From stdpp Require Import base list gmap strings.

Local Open Scope Z_scope.

(** ** Constants *)

Definition GAME_DURATION_SECONDS : Z := 3600.
Definition MIN_PLAYERS : nat := 3.
Definition MAX_PLAYERS : nat := 5.

(** ** Type definitions *)

Module Player.
Record t := mk { id : string; streak : Z }.
End Player.

Module Piece.
Record t := mk {
  id : Z; x : Z; y : Z; width : Z; height : Z; isGoal : bool
}.
End Piece.

Module Position.
Record t := mk { x : Z; y : Z }.
End Position.

Module Puzzle.
Record t := mk {
  boardWidth : Z;
  boardHeight : Z;
  pieces : list Piece.t;
  goalPosition : Position.t
}.
End Puzzle.

(** ** Board model (closures of [GameScreen] over its [puzzle] prop) *)

(** The rectangle test of [isOccupied]:
    [!(x + w <= p.x || x >= p.x + p.width || y + h <= p.y || y >= p.y + p.height)]. *)
Definition overlaps (x y w h : Z) (p : Piece.t) : bool :=
  negb ((x + w <=? Piece.x p) || (x >=? Piece.x p + Piece.width p)
        || (y + h <=? Piece.y p) || (y >=? Piece.y p + Piece.height p)).

(** The [for (const p of puzzle.pieces)] loop of [isOccupied]: [continue] on
    the excluded id, [return true] on the first overlap. *)
Fixpoint isOccupied_loop (ps : list Piece.t) (x y w h excludeId : Z) : bool :=
  match ps with
  | [] => false
  | p :: rest =>
      if Piece.id p =? excludeId then isOccupied_loop rest x y w h excludeId
      else if overlaps x y w h p then true
      else isOccupied_loop rest x y w h excludeId
  end.

Definition isOccupied (puzzle : Puzzle.t) (x y w h excludeId : Z) : bool :=
  if (x <? 0) || (y <? 0) || (x + w >? Puzzle.boardWidth puzzle)
     || (y + h >? Puzzle.boardHeight puzzle)
  then true
  else isOccupied_loop (Puzzle.pieces puzzle) x y w h excludeId.

(** [checkWinCondition]: whether [onWin] is called for the puzzle. *)
Definition checkWinCondition (puzzle : Puzzle.t) : bool :=
  match List.find Piece.isGoal (Puzzle.pieces puzzle) with
  | Some goalPiece =>
      (Piece.x goalPiece =? Position.x (Puzzle.goalPosition puzzle))
      && (Piece.y goalPiece =? Position.y (Puzzle.goalPosition puzzle))
  | None => false
  end.

(** ** Move resolver ([handleDragEnd]) *)

(** What [handleDragStart] stores of the gesture: the id that
    [handleDragEnd] looks the piece up by, and the piece's position at the
    start, to which the pointer displacement is added. *)
Record Dragging := mkDragging {
  drag_id : Z;
  pieceStartX : Z;
  pieceStartY : Z
}.

(** [Math.round] on a finite double: nearest integer, halves towards plus
    infinity. *)
Definition Math_round (q : Q) : Z := Qfloor (q + (1 # 2))%Q.

(** The two [for (let i = 1; i <= Math.abs(d); i++)] loops.  [occupied next]
    is the [isOccupied] call at coordinate [next] of the moving axis, [n] the
    number of iterations left, [final] the running [finalX] or [finalY]. *)
Fixpoint slide (occupied : Z -> bool) (start dir i : Z) (n : nat) (final : Z) : Z :=
  match n with
  | O => final
  | S n' =>
      let next := start + i * dir in
      if negb (occupied next) then slide occupied start dir (i + 1) n' next
      else final
  end.

(** The body of [handleDragEnd] from [dx], [dy] on: the final position. *)
Definition resolveMove (puzzle : Puzzle.t) (piece : Piece.t) (dx dy : Z) : Z * Z :=
  let finalX := Piece.x piece in
  let finalY := Piece.y piece in
  if Z.abs dx >? Z.abs dy then
    let dir := Z.sgn dx in
    (slide (fun nextX => isOccupied puzzle nextX (Piece.y piece)
                           (Piece.width piece) (Piece.height piece) (Piece.id piece))
           (Piece.x piece) dir 1 (Z.to_nat (Z.abs dx)) finalX,
     finalY)
  else
    let dir := Z.sgn dy in
    (finalX,
     slide (fun nextY => isOccupied puzzle (Piece.x piece) nextY
                           (Piece.width piece) (Piece.height piece) (Piece.id piece))
           (Piece.y piece) dir 1 (Z.to_nat (Z.abs dy)) finalY).

(** [targetX], [targetY].  [newX] and [newY] are the doubles
    [dragging.pieceStartX + deltaX] and [dragging.pieceStartY + deltaY] as
    the source computes them, taken as the rationals they denote (they are
    finite unless the render scale is 0); [Math.round] is exact on them. *)
Definition dragTarget (newX newY : Q) : Z * Z :=
  (Math_round newX, Math_round newY).

(** The position [handleDragEnd] settles on; [None] when [find] yields no
    piece and the handler throws on [piece.x]. *)
Definition handleDragEnd_final (puzzle : Puzzle.t) (dragging : Dragging)
    (newX newY : Q) : option (Piece.t * (Z * Z)) :=
  match List.find (fun p => Piece.id p =? drag_id dragging) (Puzzle.pieces puzzle) with
  | None => None
  | Some piece =>
      let '(targetX, targetY) := dragTarget newX newY in
      let dx := targetX - Piece.x piece in
      let dy := targetY - Piece.y piece in
      Some (piece, resolveMove puzzle piece dx dy)
  end.

Inductive DragOutcome :=
| DragThrows
| DragSnapBack
| DragPuzzleChange (newPuzzle : Puzzle.t).

Definition movePiece (dragId finalX finalY : Z) (p : Piece.t) : Piece.t :=
  if Piece.id p =? dragId
  then Piece.mk (Piece.id p) finalX finalY (Piece.width p) (Piece.height p) (Piece.isGoal p)
  else p.

Definition handleDragEnd (puzzle : Puzzle.t) (dragging : Dragging)
    (newX newY : Q) : DragOutcome :=
  match handleDragEnd_final puzzle dragging newX newY with
  | None => DragThrows
  | Some (piece, (finalX, finalY)) =>
      if negb (finalX =? Piece.x piece) || negb (finalY =? Piece.y piece) then
        let newPieces := map (movePiece (drag_id dragging) finalX finalY) (Puzzle.pieces puzzle) in
        DragPuzzleChange
          (Puzzle.mk (Puzzle.boardWidth puzzle) (Puzzle.boardHeight puzzle)
                     newPieces (Puzzle.goalPosition puzzle))
      else DragSnapBack
  end.

(** ** The fallback puzzle of [generatePuzzle] *)

Definition fallbackPuzzle : Puzzle.t :=
  Puzzle.mk 4 5
    [ Piece.mk 1 1 0 2 2 true;
      Piece.mk 2 0 0 1 2 false;
      Piece.mk 3 3 0 1 2 false;
      Piece.mk 4 0 2 1 2 false;
      Piece.mk 5 3 2 1 2 false;
      Piece.mk 6 1 2 2 1 false;
      Piece.mk 7 1 3 1 1 false;
      Piece.mk 8 2 3 1 1 false;
      Piece.mk 9 0 4 1 1 false;
      Piece.mk 10 3 4 1 1 false ]
    (Position.mk 1 3).

(** Outcome of the body of [try] in [generatePuzzle]: the parsed response
    ([JSON.parse] may give [null]), or an exception. *)
Inductive GenResult :=
| GenParsed (puzzleData : option Puzzle.t)
| GenThrows.

Definition generatePuzzle (r : GenResult) : option Puzzle.t :=
  match r with
  | GenParsed puzzleData => puzzleData
  | GenThrows => Some fallbackPuzzle
  end.

(** ** Board invariants of the data model *)

Definition inBounds (puzzle : Puzzle.t) (p : Piece.t) : bool :=
  (0 <=? Piece.x p) && (0 <=? Piece.y p)
  && (Piece.x p + Piece.width p <=? Puzzle.boardWidth puzzle)
  && (Piece.y p + Piece.height p <=? Puzzle.boardHeight puzzle).

Definition disjointFrom (p q : Piece.t) : bool :=
  negb (overlaps (Piece.x p) (Piece.y p) (Piece.width p) (Piece.height p) q).

Fixpoint nonOverlapping (ps : list Piece.t) : bool :=
  match ps with
  | [] => true
  | p :: rest => forallb (disjointFrom p) rest && nonOverlapping rest
  end.

Definition coversCell (cx cy : Z) (p : Piece.t) : bool :=
  (Piece.x p <=? cx) && (cx <? Piece.x p + Piece.width p)
  && (Piece.y p <=? cy) && (cy <? Piece.y p + Piece.height p).

Definition cellCovered (puzzle : Puzzle.t) (cx cy : Z) : bool :=
  existsb (coversCell cx cy) (Puzzle.pieces puzzle).

Definition boardCells (puzzle : Puzzle.t) : list (Z * Z) :=
  cx ← map Z.of_nat (seq 0 (Z.to_nat (Puzzle.boardWidth puzzle)));
  cy ← map Z.of_nat (seq 0 (Z.to_nat (Puzzle.boardHeight puzzle)));
  [(cx, cy)].

(** ** Shared session state and the client ([App]) *)

Inductive View := lobby | game | timesup | win.

Inductive LocalView := login | ranking | loading.

Record SharedGameState := mkShared {
  view : View;
  team : list string;
  puzzle : option Puzzle.t;
  gameStartTime : option Z
}.

(** One client (one mounted [App]).  [localView], [players],
    [currentPlayerId] and [sharedState] are its React state;
    [playersStorage], [sharedStorage] and [lastPlayerStorage] are the three
    [localStorage] entries as this client last wrote or read them;
    [published] lists the arguments of this client's [saveSharedState]
    calls, oldest first.  Sounds are left out. *)
Record App := mkApp {
  localView : LocalView;
  players : gmap string Player.t;
  currentPlayerId : option string;
  sharedState : option SharedGameState;
  playersStorage : gmap string Player.t;
  sharedStorage : option SharedGameState;
  lastPlayerStorage : option string;
  published : list SharedGameState
}.

Definition setLocalView (v : LocalView) (a : App) : App :=
  mkApp v (players a) (currentPlayerId a) (sharedState a) (playersStorage a)
        (sharedStorage a) (lastPlayerStorage a) (published a).

Definition setPlayers (ps : gmap string Player.t) (a : App) : App :=
  mkApp (localView a) ps (currentPlayerId a) (sharedState a) (playersStorage a)
        (sharedStorage a) (lastPlayerStorage a) (published a).

Definition savePlayersToStorage (ps : gmap string Player.t) (a : App) : App :=
  mkApp (localView a) (players a) (currentPlayerId a) (sharedState a) ps
        (sharedStorage a) (lastPlayerStorage a) (published a).

Definition setCurrentPlayerId (c : option string) (a : App) : App :=
  mkApp (localView a) (players a) c (sharedState a) (playersStorage a)
        (sharedStorage a) (lastPlayerStorage a) (published a).

Definition setSharedState (s : option SharedGameState) (a : App) : App :=
  mkApp (localView a) (players a) (currentPlayerId a) s (playersStorage a)
        (sharedStorage a) (lastPlayerStorage a) (published a).

Definition saveSharedState (s : SharedGameState) (a : App) : App :=
  mkApp (localView a) (players a) (currentPlayerId a) (sharedState a)
        (playersStorage a) (Some s) (lastPlayerStorage a) (published a ++ [s]).

(** [localStorage.setItem] and [removeItem] on the last-player key. *)
Definition setLastPlayer (c : option string) (a : App) : App :=
  mkApp (localView a) (players a) (currentPlayerId a) (sharedState a)
        (playersStorage a) (sharedStorage a) c (published a).

(** Another client has written [stored] under the shared-state key. *)
Definition storageWritten (stored : option SharedGameState) (a : App) : App :=
  mkApp (localView a) (players a) (currentPlayerId a) (sharedState a)
        (playersStorage a) stored (lastPlayerStorage a) (published a).

Definition getSharedState (a : App) : option SharedGameState := sharedStorage a.

Definition lobbyState : SharedGameState := mkShared lobby [] None None.

Definition resetSharedState (a : App) : App := saveSharedState lobbyState a.

(** Truthiness of [currentPlayerId], as [!currentPlayerId] tests it: [null]
    and the empty string are falsy. *)
Definition loggedIn (a : App) : option string :=
  match currentPlayerId a with
  | Some cur => if String.eqb cur EmptyString then None else Some cur
  | None => None
  end.

(** The properties every object inherits from [Object.prototype]: the
    lookup [players[id]] finds them when [players] has no record of its own
    under [id], and what it finds is truthy. *)
Definition objectPrototypeKeys : list string :=
  [ "constructor"; "hasOwnProperty"; "isPrototypeOf"; "propertyIsEnumerable";
    "toLocaleString"; "toString"; "valueOf"; "__proto__";
    "__defineGetter__"; "__defineSetter__"; "__lookupGetter__";
    "__lookupSetter__" ].

(** Truthiness of [players[id]]. *)
Definition playersHas (ps : gmap string Player.t) (id : string) : bool :=
  match ps !! id with
  | Some _ => true
  | None => bool_decide (id ∈ objectPrototypeKeys)
  end.



(** [handleStorageChange] on an event for the shared-state key. *)
Definition handleStorageChange (stored : option SharedGameState) (a : App) : App :=
  let a1 := storageWritten stored a in
  setSharedState (getSharedState a1) a1.

(** *** Handlers of [App] *)

Definition handleLogin (id : string) (a : App) : App :=
  let a1 :=
    if playersHas (players a) id then a
    else
      let updatedPlayers := <[id := Player.mk id 0]> (players a) in
      savePlayersToStorage updatedPlayers (setPlayers updatedPlayers a) in
  setLocalView loading (setLastPlayer (Some id) (setCurrentPlayerId (Some id) a1)).

Definition handleJoinOrLeaveTeam (forceLeave : bool) (a : App) : App :=
  match loggedIn a, sharedState a with
  | Some cur, Some s =>
      let isInTeam := bool_decide (cur ∈ team s) in
      let without := filter (fun pId => pId ≠ cur) (team s) in
      let newTeam :=
        if forceLeave then without
        else if isInTeam then without else team s ++ [cur] in
      let newState := mkShared (view s) newTeam (puzzle s) (gameStartTime s) in
      setSharedState (Some newState) (saveSharedState newState a)
  | _, _ => a
  end.

Definition handleLogout (a : App) : App :=
  setLocalView login
    (setLastPlayer None (setCurrentPlayerId None (handleJoinOrLeaveTeam true a))).

(** [handleStartGame] up to its [await]. *)
Definition handleStartGame_click (a : App) : App := setLocalView loading a.

(** [handleStartGame] from its [await] on.  [captured] is the [sharedState]
    the handler closed over when it was called, [gen] the outcome of the
    generator call, [now] is [Date.now()]; [a] is the client as it is when
    the call returns. *)
Definition handleStartGame_resume (captured : option SharedGameState)
    (gen : GenResult) (now : Z) (a : App) : App :=
  match generatePuzzle gen, captured with
  | Some generatedPuzzle, Some s =>
      let newState := mkShared game (team s) (Some generatedPuzzle) (Some now) in
      setSharedState (Some newState) (saveSharedState newState a)
  | _, _ => setLocalView loading a
  end.

(** [handleStartGame] when nothing reaches the client while it waits. *)
Definition handleStartGame (gen : GenResult) (now : Z) (a : App) : App :=
  handleStartGame_resume (sharedState a) gen now (handleStartGame_click a).

(** The [forEach] over the team in [handleWin] and [handleTimeUp]: the streak
    of a recorded player becomes [f] of it, an id without record is skipped.
    (For an id that is only an inherited property the source writes the
    streak on the inherited object; the records of [players] stay as they
    are.) *)
Definition updateStreak (f : Z -> Z) (updatedPlayers : gmap string Player.t)
    (playerId : string) : gmap string Player.t :=
  match updatedPlayers !! playerId with
  | Some p => <[playerId := Player.mk (Player.id p) (f (Player.streak p))]> updatedPlayers
  | None => updatedPlayers
  end.

Definition forEachTeam (f : Z -> Z) (tm : list string)
    (ps : gmap string Player.t) : gmap string Player.t :=
  foldl (updateStreak f) ps tm.

Definition handleWin (a : App) : App :=
  match sharedState a with
  | Some s =>
      match view s with
      | game =>
          let updatedPlayers := forEachTeam (fun k => k + 1) (team s) (players a) in
          let a1 := savePlayersToStorage updatedPlayers (setPlayers updatedPlayers a) in
          let newState := mkShared win (team s) (puzzle s) (gameStartTime s) in
          setSharedState (Some newState) (saveSharedState newState a1)
      | _ => a
      end
  | None => a
  end.

Definition handlePuzzleChange (newPuzzle : Puzzle.t) (a : App) : App :=
  match sharedState a with
  | Some s =>
      let newState := mkShared (view s) (team s) (Some newPuzzle) (gameStartTime s) in
      setSharedState (Some newState) (saveSharedState newState a)
  | None => a
  end.

Definition handleTimeUp (a : App) : App :=
  match sharedState a with
  | Some s =>
      match view s with
      | game =>
          let updatedPlayers := forEachTeam (fun _ => 0) (team s) (players a) in
          let a1 := savePlayersToStorage updatedPlayers (setPlayers updatedPlayers a) in
          let newState := mkShared timesup (team s) (puzzle s) (gameStartTime s) in
          setSharedState (Some newState) (saveSharedState newState a1)
      | _ => a
      end
  | None => a
  end.

Definition handleBackToLobby (a : App) : App :=
  let a1 := resetSharedState a in
  setSharedState (getSharedState a1) a1.

(** *** Components, with the props [App] passes them *)

(** [LoginScreen]: [handleSubmit] calls [onLogin] on a non-empty id ([id] is
    the trimmed input). *)
Definition LoginScreen_submit (id : string) (onLogin : string -> App -> App)
    (a : App) : App :=
  if String.eqb id EmptyString then a else onLogin id a.

(** [LobbyScreen]: the start button is [disabled={!canStartGame}], with
    [canStartGame] computed from the [team] prop. *)
Definition canStartGame (tm : list string) : bool :=
  (MIN_PLAYERS <=? length tm)%nat && (length tm <=? MAX_PLAYERS)%nat.

Definition LobbyScreen_startButton (tm : list string) (onStartGame : App -> App)
    (a : App) : App :=
  if canStartGame tm then onStartGame a else a.

(** [Timer]: [calculateTimeLeft] at wall-clock time [now], and the interval
    callback, which calls [onTimeUp] when no time is left. *)
Definition calculateTimeLeft (now startTime : Z) : Z :=
  let elapsed := (now - startTime) / 1000 in
  GAME_DURATION_SECONDS - elapsed.

Definition Timer_interval (now startTime : Z) (onTimeUp : App -> App)
    (a : App) : App :=
  if calculateTimeLeft now startTime <=? 0 then onTimeUp a else a.

(** [GameScreen]: the end of a drag on the [puzzle] prop, which hands a
    changed puzzle to [onPuzzleChange], and the effect that calls [onWin]
    when [checkWinCondition] holds of the [puzzle] prop. *)
Definition GameScreen_dragEnd (pz : Puzzle.t)
    (onPuzzleChange : Puzzle.t -> App -> App) (dragging : Dragging)
    (newX newY : Q) (a : App) : App :=
  match handleDragEnd pz dragging newX newY with
  | DragPuzzleChange newPuzzle => onPuzzleChange newPuzzle a
  | DragSnapBack | DragThrows => a
  end.

Definition GameScreen_checkWin (pz : Puzzle.t) (onWin : App -> App)
    (a : App) : App :=
  if checkWinCondition pz then onWin a else a.

(** Width of the goal marker that [GameScreen] draws under the board, the
    goal piece's; the render throws when [find] yields no goal piece. *)
Definition GameScreen_goalMarkerWidth (puzzle : Puzzle.t) : option Z :=
  Piece.width <$> List.find Piece.isGoal (Puzzle.pieces puzzle).

(** [WinScreen]'s [streak] prop, [players[currentPlayerId]?.streak ?? 0]. *)
Definition WinScreen_streak (a : App) : Z :=
  match currentPlayerId a with
  | Some cur => default 0 (Player.streak <$> players a !! cur)
  | None => 0
  end.

(** *** Screens *)

Inductive Screen :=
| LoginScreen
| RankingScreen
| Loader
| LobbyScreen (cur : string) (tm : list string)
| GameScreen (pz : Puzzle.t) (tm : list string) (startTime : Z)
| WinScreen
| TimesUpScreen
| ErrorView
| RenderThrows.

Definition LocalView_eqb (v w : LocalView) : bool :=
  match v, w with
  | login, login | ranking, ranking | loading, loading => true
  | _, _ => false
  end.

(** The [switch (sharedState.view)] of [renderView]. *)
Definition renderSwitch (a : App) (cur : string) (s : SharedGameState) : Screen :=
  match view s with
  | lobby =>
      if playersHas (players a) cur then LobbyScreen cur (team s) else ErrorView
  | game =>
      match puzzle s, gameStartTime s with
      | Some pz, Some t =>
          if t =? 0 then ErrorView
          else match GameScreen_goalMarkerWidth pz with
               | Some _ => GameScreen pz (team s) t
               | None => RenderThrows
               end
      | _, _ => ErrorView
      end
  | win => WinScreen
  | timesup => TimesUpScreen
  end.

(** [renderView]: the three tests on the local view, in the order of the
    source, then the switch. *)
Definition renderView (a : App) : Screen :=
  match loggedIn a with
  | None => LoginScreen
  | Some cur =>
      if LocalView_eqb (localView a) login then LoginScreen
      else if LocalView_eqb (localView a) ranking then RankingScreen
      else
        match sharedState a with
        | None => Loader
        | Some s =>
            if LocalView_eqb (localView a) loading then Loader
            else renderSwitch a cur s
        end
  end.

(** The effect of [GameScreen] after a render, when it is mounted. *)
Definition GameScreen_effect (a : App) : App :=
  match renderView a with
  | GameScreen pz _ _ => GameScreen_checkWin pz handleWin a
  | _ => a
  end.

(** What a user, a timer or another client can do to a client. *)
Inductive Event :=
| EvLogin (id : string)
| EvRankingBack
| EvJoinOrLeave
| EvLogout
| EvViewRankings
| EvStartGame (gen : GenResult) (now : Z)
| EvDragEnd (dragging : Dragging) (newX newY : Q)
| EvTimerTick (now : Z)
| EvBackToLobby
| EvStorage (stored : option SharedGameState).

(** An event reaches its handler through the screen that offers it; a
    storage event reaches the listener whatever is shown. *)
Definition handleEvent (e : Event) (a : App) : App :=
  match e, renderView a with
  | EvStorage stored, _ => handleStorageChange stored a
  | EvLogin id, LoginScreen => LoginScreen_submit id handleLogin a
  | EvRankingBack, RankingScreen => setLocalView loading a
  | EvJoinOrLeave, LobbyScreen _ _ => handleJoinOrLeaveTeam false a
  | EvLogout, LobbyScreen _ _ => handleLogout a
  | EvViewRankings, LobbyScreen _ _ => setLocalView ranking a
  | EvStartGame gen now, LobbyScreen _ tm =>
      LobbyScreen_startButton tm (handleStartGame gen now) a
  | EvDragEnd dragging newX newY, GameScreen pz _ _ =>
      GameScreen_dragEnd pz handlePuzzleChange dragging newX newY a
  | EvTimerTick now, GameScreen _ _ startTime =>
      Timer_interval now startTime handleTimeUp a
  | EvBackToLobby, WinScreen => handleBackToLobby a
  | EvBackToLobby, TimesUpScreen => handleBackToLobby a
  | _, _ => a
  end.

Definition dispatch (e : Event) (a : App) : App :=
  GameScreen_effect (handleEvent e a).

(** The events offered by the screens behind the switch of [renderView]
    only. *)
Definition offeredBySwitch (e : Event) : bool :=
  match e with
  | EvLogin _ | EvRankingBack | EvStorage _ => false
  | _ => true
  end.


Definition App_run (es : list Event) (a : App) : App :=
  foldl (fun a0 e => dispatch e a0) a es.

(** Snapshots published by [h] on a client whose log was [published a]. *)
Definition publishedBy (h : App -> App) (a : App) : list SharedGameState :=
  drop (length (published a)) (published (h a)).

(** *** The transitions of the session *)

(** The transitions as the components call the handlers, with the props
    [App] hands them from the client's snapshot: the team for the start
    button, the puzzle for the drag and for the win check.  They are the
    calls a mounted [LobbyScreen], [GameScreen], [Timer], [WinScreen] or
    [TimesUpScreen] makes; whether [renderView] mounts these components is
    a separate matter, settled below on [renderView] itself. *)
Inductive Action :=
| ActJoinOrLeave (forceLeave : bool)
| ActStartGame (gen : GenResult) (now : Z)
| ActMove (dragging : Dragging) (newX newY : Q)
| ActCheckWin
| ActTimeUp
| ActBackToLobby.

Definition perform (act : Action) (a : App) : App :=
  match act with
  | ActJoinOrLeave forceLeave => handleJoinOrLeaveTeam forceLeave a
  | ActStartGame gen now =>
      match sharedState a with
      | Some s => LobbyScreen_startButton (team s) (handleStartGame gen now) a
      | None => a
      end
  | ActMove dragging newX newY =>
      match sharedState a with
      | Some s =>
          match puzzle s with
          | Some pz => GameScreen_dragEnd pz handlePuzzleChange dragging newX newY a
          | None => a
          end
      | None => a
      end
  | ActCheckWin =>
      match sharedState a with
      | Some s =>
          match puzzle s with
          | Some pz => GameScreen_checkWin pz handleWin a
          | None => a
          end
      | None => a
      end
  | ActTimeUp => handleTimeUp a
  | ActBackToLobby => handleBackToLobby a
  end.

(** Snapshots reachable from the lobby snapshot by the transitions: any
    client that holds a reachable snapshot, up to date or stale, may perform
    one, and what it publishes is reachable. *)
Inductive reachable : SharedGameState -> Prop :=
| reach_init : reachable lobbyState
| reach_publish (s s' : SharedGameState) (a : App) (act : Action) :
    reachable s -> sharedState a = Some s -> s' ∈ publishedBy (perform act) a ->
    reachable s'.

(** ** Statement vocabulary *)

(** The goal-bearing pieces of a list, in order. *)
Definition goalPieces (ps : list Piece.t) : list Piece.t :=
  filter (fun p => Piece.isGoal p = true) ps.

Definition withPieces (puzzle : Puzzle.t) (ps : list Piece.t) : Puzzle.t :=
  Puzzle.mk (Puzzle.boardWidth puzzle) (Puzzle.boardHeight puzzle) ps
            (Puzzle.goalPosition puzzle).

(** The axis [handleDragEnd] moves along, and the displacement on it. *)
Definition horizontalMove (dx dy : Z) : bool := Z.abs dx >? Z.abs dy.

Definition axisDisplacement (dx dy : Z) : Z :=
  if horizontalMove dx dy then dx else dy.

(** The position of [piece] shifted by [d] cells along the axis of the move. *)
Definition shifted (piece : Piece.t) (dx dy d : Z) : Z * Z :=
  if horizontalMove dx dy then (Piece.x piece + d, Piece.y piece)
  else (Piece.x piece, Piece.y piece + d).

(** [isOccupied] for the rectangle of [piece] put at [pos], excluding itself. *)
Definition blockedAt (puzzle : Puzzle.t) (piece : Piece.t) (pos : Z * Z) : bool :=
  isOccupied puzzle pos.1 pos.2 (Piece.width piece) (Piece.height piece) (Piece.id piece).

(** Every cell of the board lies under some piece. *)
Definition coversBoard (puzzle : Puzzle.t) : Prop :=
  forall c, c ∈ boardCells puzzle -> cellCovered puzzle c.1 c.2 = true.

Definition freeCells (puzzle : Puzzle.t) : list (Z * Z) :=
  List.filter (fun c => negb (cellCovered puzzle c.1 c.2)) (boardCells puzzle).

(** A player record with its streak replaced by [f] of it. *)
Definition withStreak (f : Z -> Z) (p : Player.t) : Player.t :=
  Player.mk (Player.id p) (f (Player.streak p)).

(** The streak of a player as the client reads it,
    [players[id]?.streak ?? 0]. *)
Definition streakOf (ps : gmap string Player.t) (k : string) : Z :=
  default 0 (Player.streak <$> ps !! k).

(** On the transition to won, every team member's streak goes up by 1. *)
Definition everyMemberRaised (a : App) : Prop :=
  forall s, sharedState a = Some s -> view s = game ->
    forall k, k ∈ team s ->
      streakOf (players (handleWin a)) k = streakOf (players a) k + 1.

(** No snapshot published by the end of the drag shows a solved puzzle
    while still in play. *)
Definition moveAtomic (pz : Puzzle.t) (dragging : Dragging) (newX newY : Q)
    (a : App) : Prop :=
  forall s' pz',
    s' ∈ publishedBy (GameScreen_dragEnd pz handlePuzzleChange dragging newX newY) a ->
    puzzle s' = Some pz' -> checkWinCondition pz' = true -> view s' <> game.

(** Puzzle and start time present in play and after a win, absent in the
    lobby and after expiry. *)
Definition presentOnlyInPlay (s : SharedGameState) : Prop :=
  match view s with
  | game | win => is_Some (puzzle s) /\ is_Some (gameStartTime s)
  | lobby | timesup => puzzle s = None /\ gameStartTime s = None
  end.

(** Puzzle and start time absent in the lobby, present in every other phase. *)
Definition phaseConsistent (s : SharedGameState) : Prop :=
  match view s with
  | lobby => puzzle s = None /\ gameStartTime s = None
  | game | win | timesup => is_Some (puzzle s) /\ is_Some (gameStartTime s)
  end.

Definition snapshotInv (s : SharedGameState) : Prop :=
  phaseConsistent s /\ NoDup (team s).

(** A handler keeps [snapshotInv]: it only appends to the log, and what it
    appends and what it leaves as shared state satisfy the invariant. *)
Definition preserves (h : App -> App) : Prop :=
  forall a, (forall s, sharedState a = Some s -> snapshotInv s) ->
    exists l, published (h a) = published a ++ l
              /\ Forall snapshotInv l
              /\ (forall s', sharedState (h a) = Some s' -> snapshotInv s').

(** Closes the goal of a handler that returns its client as it was. *)
Ltac keep_same Hinv :=
  exists []; split; [simpl; now rewrite app_nil_r|];
  split; [apply Forall_nil_2 |
          first [ exact Hinv
                | let H := fresh in
                  intros ? H; simpl in H;
                  first [ congruence | apply Hinv; congruence ] ] ].


(** Every record is filed under its own id and has a streak that is not
    negative. *)
Definition ledgerOk (ps : gmap string Player.t) : Prop :=
  forall k p, ps !! k = Some p -> Player.id p = k /\ 0 <= Player.streak p.

(** How often [k] occurs in a team. *)
Definition occurrences (k : string) (tm : list string) : nat :=
  length (filter (fun x => x = k) tm).

(** ** Further code of [GameScreen] and [Timer] *)

(** [handleDragStart]: the gesture recorded for piece [id]; nothing is
    recorded when [find] yields no piece.  The pointer coordinates it also
    stores only serve to compute the pointer displacement. *)
Definition handleDragStart (puzzle : Puzzle.t) (id : Z) : option Dragging :=
  match List.find (fun p => Piece.id p =? id) (Puzzle.pieces puzzle) with
  | Some piece => Some (mkDragging id (Piece.x piece) (Piece.y piece))
  | None => None
  end.

(** [Timer]: the state [timeLeft] after an interval tick at time [now]. *)
Definition Timer_tick (now startTime : Z) : Z :=
  let newTimeLeft := calculateTimeLeft now startTime in
  if newTimeLeft <=? 0 then 0 else newTimeLeft.

(** [Math.floor(timeLeft / 60)] and [timeLeft % 60]. *)
Definition Timer_minutes (timeLeft : Z) : Z := timeLeft / 60.

Definition Timer_seconds (timeLeft : Z) : Z := Z.rem timeLeft 60.

(** ** Well-formed boards *)

Definition wellFormed (puzzle : Puzzle.t) : Prop :=
  forallb (inBounds puzzle) (Puzzle.pieces puzzle) = true
  /\ nonOverlapping (Puzzle.pieces puzzle) = true
  /\ NoDup (map Piece.id (Puzzle.pieces puzzle)).

(** The rectangle [x, y, w, h] holds the cell [(cx, cy)]. *)
Definition rectHolds (x y w h cx cy : Z) : Prop :=
  x <= cx < x + w /\ y <= cy < y + h.

(** ** Sample inputs *)

Definition samplePlayers : gmap string Player.t :=
  <["ana" := Player.mk "ana" 2]>
    (<["bo" := Player.mk "bo" 0]> (<["cy" := Player.mk "cy" 5]> ∅)).

(** A client logged in as [cur] whose view of the session is [s]. *)
Definition clientOf (cur : string) (s : SharedGameState) : App :=
  mkApp loading samplePlayers (Some cur) (Some s) samplePlayers (Some s)
        (Some cur) [].

(** A board on which the goal piece is one cell above the goal. *)
Definition oneMoveLeft : Puzzle.t :=
  Puzzle.mk 4 5 [ Piece.mk 1 1 2 2 2 true; Piece.mk 2 0 0 1 1 false ]
            (Position.mk 1 3).

Definition oneMoveLeftSolved : Puzzle.t :=
  Puzzle.mk 4 5 [ Piece.mk 1 1 3 2 2 true; Piece.mk 2 0 0 1 1 false ]
            (Position.mk 1 3).

(** A piece with one free cell to its right, then a neighbour. *)
Definition corridorPuzzle : Puzzle.t :=
  Puzzle.mk 4 5 [ Piece.mk 1 0 0 1 1 false; Piece.mk 2 2 0 2 2 true ]
            (Position.mk 1 3).

Definition sampleTeam : list string := ["ana"; "bo"; "cy"].

Definition twoPlayerLobby : SharedGameState :=
  mkShared lobby ["ana"; "bo"] None None.

Definition sampleLobby : SharedGameState :=
  mkShared lobby sampleTeam None None.

Definition playingState : SharedGameState :=
  mkShared game sampleTeam (Some fallbackPuzzle) (Some 1000).

Definition expiredState : SharedGameState :=
  mkShared timesup sampleTeam (Some fallbackPuzzle) (Some 1000).

Definition almostWonState : SharedGameState :=
  mkShared game sampleTeam (Some oneMoveLeft) (Some 1000).

Definition wonState : SharedGameState :=
  mkShared win sampleTeam (Some oneMoveLeftSolved) (Some 1000).

(** The goal piece of [oneMoveLeft], at (1,2), dragged to (1.2, 2.8). *)
Definition winningDragging : Dragging := mkDragging 1 1 2.

Definition winningX : Q := 6 # 5.

Definition winningY : Q := 14 # 5.

(** A playing snapshot whose team has a member without a player record. *)
Definition strangerState : SharedGameState :=
  mkShared game ["ana"; "zed"] (Some fallbackPuzzle) (Some 1000).

(** The fallback board after piece 9 slid two cells to the right. *)
Definition fallbackAfterMove : Puzzle.t :=
  withPieces fallbackPuzzle
    (map (movePiece 9 2 4) (Puzzle.pieces fallbackPuzzle)).

(** * Board model: proofs *)

Section BoardModel.

Lemma overlaps_sym (p q : Piece.t) :
  overlaps (Piece.x p) (Piece.y p) (Piece.width p) (Piece.height p) q
  = overlaps (Piece.x q) (Piece.y q) (Piece.width q) (Piece.height q) p.
Proof.
  unfold overlaps. rewrite !Z.geb_leb. f_equal.
  repeat match goal with |- context [?a <=? ?b] => destruct (Z.leb_spec a b) end;
    simpl; try reflexivity; lia.
Qed.

Lemma isOccupied_loop_false (ps : list Piece.t) (x y w h excludeId : Z) :
  isOccupied_loop ps x y w h excludeId = false <->
  forall q, q ∈ ps -> Piece.id q <> excludeId -> overlaps x y w h q = false.
Proof.
  induction ps as [|p rest IH]; simpl.
  - split; [intros _ q Hq; inversion Hq | reflexivity].
  - destruct (Z.eqb_spec (Piece.id p) excludeId) as [Heq|Hne].
    + rewrite IH. split.
      * intros H q Hq Hid. apply elem_of_cons in Hq as [->|Hq]; [congruence | auto].
      * intros H q Hq. apply H. now apply elem_of_cons; right.
    + destruct (overlaps x y w h p) eqn:Hov.
      * split; [discriminate|]. intros H.
        rewrite <- Hov. apply H; [apply elem_of_cons; now left | assumption].
      * rewrite IH. split.
        -- intros H q Hq Hid. apply elem_of_cons in Hq as [->|Hq]; auto.
        -- intros H q Hq. apply H. now apply elem_of_cons; right.
Qed.

Lemma nonOverlapping_elem (ps : list Piece.t) (p q : Piece.t) :
  nonOverlapping ps = true -> p ∈ ps -> q ∈ ps -> p <> q ->
  disjointFrom p q = true.
Proof.
  induction ps as [|r rest IH]; simpl; intros Hno Hp Hq Hne.
  - inversion Hp.
  - apply andb_true_iff in Hno as [Hall Hrest].
    rewrite forallb_forall in Hall.
    apply elem_of_cons in Hp as [->|Hp]; apply elem_of_cons in Hq as [->|Hq].
    + congruence.
    + apply Hall. now apply list_elem_of_In.
    + unfold disjointFrom. rewrite overlaps_sym.
      apply (Hall p). now apply list_elem_of_In.
    + now apply IH.
Qed.

(** A piece of a well-formed puzzle does not block itself where it stands. *)
Lemma start_not_occupied (puzzle : Puzzle.t) (p : Piece.t) :
  forallb (inBounds puzzle) (Puzzle.pieces puzzle) = true ->
  nonOverlapping (Puzzle.pieces puzzle) = true ->
  p ∈ Puzzle.pieces puzzle ->
  blockedAt puzzle p (Piece.x p, Piece.y p) = false.
Proof.
  intros Hin Hno Hp. unfold blockedAt, isOccupied; simpl.
  rewrite forallb_forall in Hin.
  specialize (Hin p (proj1 (list_elem_of_In _ _) Hp)).
  unfold inBounds in Hin. rewrite !andb_true_iff, !Z.leb_le in Hin.
  destruct Hin as [[[Hx Hy] Hw] Hh].
  rewrite !Z.gtb_ltb.
  destruct (Z.ltb_spec (Piece.x p) 0); [lia|].
  destruct (Z.ltb_spec (Piece.y p) 0); [lia|].
  destruct (Z.ltb_spec (Puzzle.boardWidth puzzle) (Piece.x p + Piece.width p)); [lia|].
  destruct (Z.ltb_spec (Puzzle.boardHeight puzzle) (Piece.y p + Piece.height p)); [lia|].
  simpl. apply isOccupied_loop_false. intros q Hq Hid.
  assert (Hne : p <> q) by (intros ->; congruence).
  pose proof (nonOverlapping_elem _ p q Hno Hp Hq Hne) as Hd.
  unfold disjointFrom in Hd. now apply negb_true_iff in Hd.
Qed.

Lemma find_goal_head (ps : list Piece.t) :
  List.find Piece.isGoal ps = head (goalPieces ps).
Proof.
  unfold goalPieces. induction ps as [|p rest IH]; simpl; [reflexivity|].
  rewrite filter_cons. destruct (Piece.isGoal p) eqn:Hg.
  - rewrite decide_True by reflexivity. reflexivity.
  - rewrite decide_False by discriminate. exact IH.
Qed.

Lemma goalPieces_perm (ps ps' : list Piece.t) (g : Piece.t) :
  Permutation ps ps' -> goalPieces ps = [g] -> goalPieces ps' = [g].
Proof.
  intros Hperm Hone. unfold goalPieces in *.
  assert (Hp : Permutation (filter (fun p => Piece.isGoal p = true) ps)
                           (filter (fun p => Piece.isGoal p = true) ps'))
    by (now rewrite Hperm).
  rewrite Hone in Hp. now apply Permutation_singleton_l in Hp.
Qed.

Lemma find_id_some (ps : list Piece.t) (p : Piece.t) (i : Z) :
  p ∈ ps -> Piece.id p = i ->
  exists piece, List.find (fun q => Piece.id q =? i) ps = Some piece
                /\ piece ∈ ps /\ Piece.id piece = i.
Proof.
  intros Hp Hid.
  destruct (List.find (fun q => Piece.id q =? i) ps) as [piece|] eqn:Hf.
  - apply find_some in Hf as [Hin Heq].
    exists piece. repeat split; [now apply list_elem_of_In | now apply Z.eqb_eq].
  - exfalso. apply list_elem_of_In in Hp.
    pose proof (find_none _ _ Hf p Hp) as Hn. simpl in Hn.
    apply Z.eqb_neq in Hn. contradiction.
Qed.

End BoardModel.

(** * Move resolver: proofs *)

Section MoveResolver.

Variable occupied : Z -> bool.
Variables start dir : Z.

(** The scan accepts exactly the free prefix of the corridor. *)
Lemma slide_prefix (k : nat) : forall (i : Z) (n : nat) (final : Z),
  (k <= n)%nat ->
  (forall j, (j < k)%nat -> occupied (start + (i + Z.of_nat j) * dir) = false) ->
  ((k < n)%nat -> occupied (start + (i + Z.of_nat k) * dir) = true) ->
  slide occupied start dir i n final
  = match k with O => final | S _ => start + (i + Z.of_nat k - 1) * dir end.
Proof.
  induction k as [|k IH]; intros i n final Hle Hfree Hblock.
  - destruct n as [|n]; simpl; [reflexivity|].
    replace (start + i * dir) with (start + (i + Z.of_nat 0) * dir)
      by (f_equal; f_equal; lia).
    rewrite Hblock by lia. reflexivity.
  - destruct n as [|n]; [lia|]. simpl slide.
    pose proof (Hfree O ltac:(lia)) as H0.
    replace (start + (i + Z.of_nat 0) * dir) with (start + i * dir) in H0
      by (f_equal; f_equal; lia).
    rewrite H0. simpl negb. cbv iota.
    rewrite (IH (i + 1) n (start + i * dir)).
    + destruct k; f_equal; f_equal; lia.
    + lia.
    + intros j Hj. specialize (Hfree (S j) ltac:(lia)).
      rewrite <- Hfree. f_equal. f_equal. lia.
    + intros Hk. specialize (Hblock ltac:(lia)).
      rewrite <- Hblock. f_equal. f_equal. lia.
Qed.

(** The scan ends on its initial value or on a coordinate it found free. *)
Lemma slide_free : forall (n : nat) (i final : Z),
  slide occupied start dir i n final = final
  \/ occupied (slide occupied start dir i n final) = false.
Proof.
  induction n as [|n IH]; intros i final; simpl; [now left|].
  destruct (occupied (start + i * dir)) eqn:Hocc; simpl; [now left|].
  destruct (IH (i + 1) (start + i * dir)) as [Heq|Hfree].
  - right. now rewrite Heq.
  - now right.
Qed.

End MoveResolver.

Section ResolveMove.

Variable puzzle : Puzzle.t.
Variable piece : Piece.t.
Variables dx dy : Z.

Let n := axisDisplacement dx dy.
Let dir := Z.sgn n.

Lemma resolveMove_prefix (k : Z) :
  0 <= k <= Z.abs n ->
  (forall i, 1 <= i <= k ->
     blockedAt puzzle piece (shifted piece dx dy (i * dir)) = false) ->
  (k < Z.abs n ->
     blockedAt puzzle piece (shifted piece dx dy ((k + 1) * dir)) = true) ->
  resolveMove puzzle piece dx dy = shifted piece dx dy (k * dir).
Proof.
  subst dir n. unfold resolveMove, shifted, axisDisplacement, blockedAt, horizontalMove.
  destruct (Z.abs dx >? Z.abs dy); simpl; intros Hk Hfree Hblock; f_equal.
  all: rewrite (slide_prefix _ _ _ (Z.to_nat k)); try lia.
  all: try (destruct (Z.to_nat k) eqn:Hz; [ | rewrite <- Hz]; lia).
  all: try (intros j Hj; rewrite <- (Hfree (1 + Z.of_nat j)) by lia; reflexivity).
  all: intros Hlt; rewrite <- Hblock by lia; f_equal; f_equal; lia.
Qed.

Lemma resolveMove_legal :
  blockedAt puzzle piece (Piece.x piece, Piece.y piece) = false ->
  blockedAt puzzle piece (resolveMove puzzle piece dx dy) = false.
Proof.
  unfold resolveMove, blockedAt. simpl. intros Hstart.
  destruct (Z.abs dx >? Z.abs dy); simpl.
  - match goal with |- context [slide ?o ?s ?d ?i ?m ?f] =>
      destruct (slide_free o s d m i f) as [Heq|Hfree] end.
    + now rewrite Heq.
    + exact Hfree.
  - match goal with |- context [slide ?o ?s ?d ?i ?m ?f] =>
      destruct (slide_free o s d m i f) as [Heq|Hfree] end.
    + now rewrite Heq.
    + exact Hfree.
Qed.

(** C4: a requested displacement of [n] cells along the axis of the move.
    If every offset from 1 to |n| is free, the resolver returns the start
    shifted by [n]; if the first [k < |n|] offsets are free and offset [k+1]
    is obstructed, it returns the start shifted by [k * dir], with [dir] the
    sign of the displacement.  The other coordinate is the start's. *)
Theorem resolveMove_corridor :
  ((forall i, 1 <= i <= Z.abs n ->
      blockedAt puzzle piece (shifted piece dx dy (i * dir)) = false) ->
   resolveMove puzzle piece dx dy = shifted piece dx dy n)
  /\
  (forall k, 0 <= k < Z.abs n ->
     (forall i, 1 <= i <= k ->
        blockedAt puzzle piece (shifted piece dx dy (i * dir)) = false) ->
     blockedAt puzzle piece (shifted piece dx dy ((k + 1) * dir)) = true ->
     resolveMove puzzle piece dx dy = shifted piece dx dy (k * dir)).
Proof.
  split.
  - intros Hfree.
    assert (Hn : Z.abs n * dir = n) by apply Z.abs_sgn.
    rewrite <- Hn at 1.
    apply resolveMove_prefix; [lia | exact Hfree | lia].
  - intros k Hk Hfree Hblock.
    apply resolveMove_prefix; [lia | exact Hfree | intros _; exact Hblock].
Qed.

End ResolveMove.

(** C5: in a puzzle whose pieces are in bounds and do not overlap, for every
    piece of it and every position the drag has moved it to (every raw
    displacement, then), [handleDragEnd] finds the piece and settles on a
    position that [isOccupied], excluding the piece itself, reports free;
    the start position is such a position, and the handler does not throw. *)
Theorem handleDragEnd_final_legal (puzzle : Puzzle.t) (dragging : Dragging)
    (newX newY : Q) (p : Piece.t) :
  forallb (inBounds puzzle) (Puzzle.pieces puzzle) = true ->
  nonOverlapping (Puzzle.pieces puzzle) = true ->
  p ∈ Puzzle.pieces puzzle ->
  Piece.id p = drag_id dragging ->
  exists piece final,
    handleDragEnd_final puzzle dragging newX newY = Some (piece, final)
    /\ piece ∈ Puzzle.pieces puzzle
    /\ Piece.id piece = drag_id dragging
    /\ blockedAt puzzle piece final = false
    /\ blockedAt puzzle piece (Piece.x piece, Piece.y piece) = false
    /\ handleDragEnd puzzle dragging newX newY <> DragThrows.
Proof.
  intros Hin Hno Hp Hid.
  destruct (find_id_some _ p _ Hp Hid) as (piece & Hfind & Hpiece & Hpid).
  pose proof (start_not_occupied puzzle piece Hin Hno Hpiece) as Hstart.
  unfold handleDragEnd, handleDragEnd_final. rewrite Hfind.
  destruct (dragTarget newX newY) as [targetX targetY].
  eexists piece, _. split; [reflexivity|].
  repeat split; try assumption.
  - now apply resolveMove_legal.
  - destruct (resolveMove _ _ _ _) as [finalX finalY].
    destruct (negb _ || negb _); discriminate.
Qed.

(** C6 (as amended): the fallback puzzle substituted when generation throws
    is a 4x5 board with goal cell (1,3), one goal piece, 2x2 at (1,0), and 9
    other pieces, all in bounds and pairwise non-overlapping; the pieces
    cover 18 of the 20 cells and leave (1,4) and (2,4) free. *)
Theorem fallbackPuzzle_layout :
  generatePuzzle GenThrows = Some fallbackPuzzle
  /\ Puzzle.boardWidth fallbackPuzzle = 4
  /\ Puzzle.boardHeight fallbackPuzzle = 5
  /\ Puzzle.goalPosition fallbackPuzzle = Position.mk 1 3
  /\ goalPieces (Puzzle.pieces fallbackPuzzle) = [Piece.mk 1 1 0 2 2 true]
  /\ length (List.filter (fun p => negb (Piece.isGoal p)) (Puzzle.pieces fallbackPuzzle)) = 9%nat
  /\ forallb (inBounds fallbackPuzzle) (Puzzle.pieces fallbackPuzzle) = true
  /\ nonOverlapping (Puzzle.pieces fallbackPuzzle) = true
  /\ length (boardCells fallbackPuzzle) = 20%nat
  /\ freeCells fallbackPuzzle = [(1, 4); (2, 4)].
Proof. repeat split; vm_compute; reflexivity. Qed.

(** C6, counterexample: the cell (1,4) of the fallback board lies under no
    piece, so the pieces do not cover the board. *)
Lemma fallbackPuzzle_not_covering : ~ coversBoard fallbackPuzzle.
Proof.
  intros H. specialize (H (1, 4)).
  assert (Hin : (1, 4) ∈ boardCells fallbackPuzzle).
  { apply list_elem_of_In. vm_compute. tauto. }
  specialize (H Hin). vm_compute in H. discriminate.
Qed.

(** C9: when exactly one piece of the puzzle is goal-bearing,
    [checkWinCondition] holds iff that piece's (x, y) is the goal position,
    and it gives the same answer on every permutation of the pieces.
    (Non-overlap of the pieces is not needed.) *)
Theorem checkWinCondition_goal (puzzle : Puzzle.t) (g : Piece.t) :
  goalPieces (Puzzle.pieces puzzle) = [g] ->
  (checkWinCondition puzzle = true <->
     Position.mk (Piece.x g) (Piece.y g) = Puzzle.goalPosition puzzle)
  /\ (forall ps', Permutation (Puzzle.pieces puzzle) ps' ->
        checkWinCondition (withPieces puzzle ps') = checkWinCondition puzzle).
Proof.
  intros Hone. split.
  - unfold checkWinCondition. rewrite find_goal_head, Hone. simpl.
    rewrite andb_true_iff, !Z.eqb_eq.
    destruct (Puzzle.goalPosition puzzle) as [gx gy]; simpl.
    split; [intros [-> ->]; reflexivity | intros [= -> ->]; auto].
  - intros ps' Hperm. unfold checkWinCondition, withPieces; simpl.
    rewrite !find_goal_head, Hone, (goalPieces_perm _ _ g Hperm Hone).
    reflexivity.
Qed.

(** * Streak ledger: proofs *)

Section Streaks.

Variable f : Z -> Z.

Lemma updateStreak_lookup (m : gmap string Player.t) (playerId k : string) :
  updateStreak f m playerId !! k
  = if decide (k = playerId) then withStreak f <$> m !! k else m !! k.
Proof.
  unfold updateStreak. destruct (decide (k = playerId)) as [->|Hne].
  - destruct (m !! playerId) as [p|] eqn:Hp.
    + now rewrite lookup_insert_eq.
    + now rewrite Hp.
  - destruct (m !! playerId) as [p|]; [|reflexivity].
    now rewrite lookup_insert_ne by congruence.
Qed.

Lemma forEachTeam_lookup (tm : list string) :
  NoDup tm -> forall (m : gmap string Player.t) (k : string),
  forEachTeam f tm m !! k
  = if decide (k ∈ tm) then withStreak f <$> m !! k else m !! k.
Proof.
  unfold forEachTeam. induction 1 as [|x rest Hx Hnd IH]; intros m k; cbn [foldl].
  - case_decide; [exfalso; set_solver | reflexivity].
  - rewrite IH, updateStreak_lookup.
    destruct (decide (k = x)) as [->|Hne].
    + destruct (decide (x ∈ rest)) as [Hin|_]; [contradiction|].
      destruct (decide (x ∈ x :: rest)) as [_|Hn]; [reflexivity|].
      exfalso. apply Hn, elem_of_cons. now left.
    + destruct (decide (k ∈ rest)) as [Hin|Hnin];
        destruct (decide (k ∈ x :: rest)) as [Hin'|Hnin']; try reflexivity.
      * exfalso. apply Hnin', elem_of_cons. now right.
      * exfalso. apply elem_of_cons in Hin' as [?|?]; contradiction.
Qed.

Lemma updateStreak_dom (m : gmap string Player.t) (playerId : string) :
  dom (updateStreak f m playerId) = dom m.
Proof.
  unfold updateStreak. destruct (m !! playerId) as [p|] eqn:Hp; [|reflexivity].
  apply dom_insert_lookup_L. now rewrite Hp.
Qed.

Lemma forEachTeam_dom (tm : list string) : forall m : gmap string Player.t,
  dom (forEachTeam f tm m) = dom m.
Proof.
  unfold forEachTeam. induction tm as [|x rest IH]; intros m; simpl; [reflexivity|].
  now rewrite IH, updateStreak_dom.
Qed.

End Streaks.

(** C7 (as amended): from a playing snapshot whose team lists no id twice,
    [handleWin] moves to [win] and adds exactly 1 to the streak of every
    team member that has a record in the client's players store, and
    [handleTimeUp] moves to [timesup] and sets the streak of every such
    member to 0; a team member without a record there is skipped and gets
    none; the record of a player outside the team is left as it was; and
    the store so updated is what the handler writes to storage. *)
Theorem team_streaks_on_win_and_timeup (a : App) (s : SharedGameState) :
  sharedState a = Some s -> view s = game -> NoDup (team s) ->
  (sharedState (handleWin a)
     = Some (mkShared win (team s) (puzzle s) (gameStartTime s))
   /\ (forall k p, k ∈ team s -> players a !! k = Some p ->
         players (handleWin a) !! k
         = Some (Player.mk (Player.id p) (Player.streak p + 1)))
   /\ (forall k, k ∈ team s -> players a !! k = None ->
         players (handleWin a) !! k = None)
   /\ (forall k, k ∉ team s -> players (handleWin a) !! k = players a !! k)
   /\ playersStorage (handleWin a) = players (handleWin a))
  /\
  (sharedState (handleTimeUp a)
     = Some (mkShared timesup (team s) (puzzle s) (gameStartTime s))
   /\ (forall k p, k ∈ team s -> players a !! k = Some p ->
         players (handleTimeUp a) !! k = Some (Player.mk (Player.id p) 0))
   /\ (forall k, k ∈ team s -> players a !! k = None ->
         players (handleTimeUp a) !! k = None)
   /\ (forall k, k ∉ team s -> players (handleTimeUp a) !! k = players a !! k)
   /\ playersStorage (handleTimeUp a) = players (handleTimeUp a)).
Proof.
  intros Hs Hview Hnd. unfold handleWin, handleTimeUp. rewrite Hs, Hview. simpl.
  split.
  - split; [reflexivity|]. split; [|split; [|split; [|reflexivity]]].
    + intros k p Hk Hp. rewrite forEachTeam_lookup by assumption.
      rewrite decide_True by assumption. now rewrite Hp.
    + intros k Hk Hp. rewrite forEachTeam_lookup by assumption.
      rewrite decide_True by assumption. now rewrite Hp.
    + intros k Hk. rewrite forEachTeam_lookup by assumption.
      now rewrite decide_False by assumption.
  - split; [reflexivity|]. split; [|split; [|split; [|reflexivity]]].
    + intros k p Hk Hp. rewrite forEachTeam_lookup by assumption.
      rewrite decide_True by assumption. now rewrite Hp.
    + intros k Hk Hp. rewrite forEachTeam_lookup by assumption.
      rewrite decide_True by assumption. now rewrite Hp.
    + intros k Hk. rewrite forEachTeam_lookup by assumption.
      now rewrite decide_False by assumption.
Qed.

(** C7, counterexample: "zed" is in the team but has no record in the
    client's players store; after [handleWin] the streak read for "zed" is 0
    as before, not 1. *)
Lemma recordless_member_not_raised :
  ~ everyMemberRaised (clientOf "ana" strangerState).
Proof.
  intros H.
  assert (Hin : "zed" ∈ team strangerState)
    by (apply list_elem_of_further, list_elem_of_here).
  specialize (H strangerState eq_refl eq_refl "zed" Hin).
  vm_compute in H. discriminate H.
Qed.

(** C10: [handleWin] and [handleTimeUp] leave the set of player identifiers
    of the store as it was: a team member without a record gets none, and
    the transition to [win] or [timesup] takes place all the same. *)
Theorem streak_updates_keep_ids (a : App) :
  dom (players (handleWin a)) = dom (players a)
  /\ dom (players (handleTimeUp a)) = dom (players a)
  /\ (forall k, players a !! k = None ->
        players (handleWin a) !! k = None
        /\ players (handleTimeUp a) !! k = None)
  /\ (forall s, sharedState a = Some s -> view s = game ->
        view <$> sharedState (handleWin a) = Some win
        /\ view <$> sharedState (handleTimeUp a) = Some timesup).
Proof.
  assert (Hw : dom (players (handleWin a)) = dom (players a)).
  { unfold handleWin. destruct (sharedState a) as [s|]; [|reflexivity].
    destruct (view s); try reflexivity. simpl. apply forEachTeam_dom. }
  assert (Ht : dom (players (handleTimeUp a)) = dom (players a)).
  { unfold handleTimeUp. destruct (sharedState a) as [s|]; [|reflexivity].
    destruct (view s); try reflexivity. simpl. apply forEachTeam_dom. }
  split; [exact Hw|]. split; [exact Ht|]. split.
  - intros k Hk. split; apply not_elem_of_dom.
    + rewrite Hw. now apply not_elem_of_dom.
    + rewrite Ht. now apply not_elem_of_dom.
  - intros s Hs Hv. unfold handleWin, handleTimeUp. now rewrite Hs, Hv.
Qed.

(** * Session state machine: proofs *)

(** What [renderView] shows: the local view is never anything but [login],
    [ranking] or [loading], and each of the three returns before the switch
    on the shared view. *)
Lemma renderView_shown (a : App) :
  renderView a = LoginScreen \/ renderView a = RankingScreen
  \/ renderView a = Loader.
Proof.
  unfold renderView. destruct (loggedIn a) as [cur|]; [|now left].
  destruct (localView a); cbn.
  - now left.
  - right. now left.
  - right. right. now destruct (sharedState a).
Qed.

Lemma GameScreen_effect_idle (a : App) : GameScreen_effect a = a.
Proof.
  unfold GameScreen_effect.
  destruct (renderView_shown a) as [H|[H|H]]; now rewrite H.
Qed.

Lemma dispatch_handleEvent (e : Event) (a : App) : dispatch e a = handleEvent e a.
Proof. apply GameScreen_effect_idle. Qed.

(** The events that only the lobby, game, win and time-up screens offer
    never reach a handler. *)
Lemma handleEvent_switch_only (e : Event) (a : App) :
  offeredBySwitch e = true -> handleEvent e a = a.
Proof.
  intros He. unfold handleEvent.
  destruct (renderView_shown a) as [H|[H|H]]; rewrite H;
    destruct e; try reflexivity; discriminate He.
Qed.

Lemma handleTimeUp_not_playing (a : App) :
  (forall s, sharedState a = Some s -> view s <> game) -> handleTimeUp a = a.
Proof.
  intros Hnp. unfold handleTimeUp.
  destruct (sharedState a) as [s|] eqn:Hs; [|reflexivity].
  specialize (Hnp s eq_refl). destruct (view s); congruence.
Qed.

(** C8: outside the playing phase [handleTimeUp] changes nothing of the
    client, neither the snapshot nor any streak, and a timer tick changes
    nothing either, whatever the timer's start time and the clock; fired
    twice in a row [handleTimeUp] does what it does once. *)
Theorem handleTimeUp_idempotent (a : App) :
  ((forall s, sharedState a = Some s -> view s <> game) ->
     handleTimeUp a = a
     /\ (forall now, dispatch (EvTimerTick now) a = a)
     /\ (forall now startTime, Timer_interval now startTime handleTimeUp a = a))
  /\ handleTimeUp (handleTimeUp a) = handleTimeUp a.
Proof.
  split.
  - intros Hnp. split; [now apply handleTimeUp_not_playing|]. split.
    + intros now. rewrite dispatch_handleEvent.
      now apply handleEvent_switch_only.
    + intros now startTime. unfold Timer_interval.
      destruct (calculateTimeLeft now startTime <=? 0); [|reflexivity].
      now apply handleTimeUp_not_playing.
  - unfold handleTimeUp at 2.
    destruct (sharedState a) as [s|] eqn:Hs.
    + destruct (view s) eqn:Hv;
        unfold handleTimeUp; rewrite ?Hs, ?Hv; reflexivity.
    + unfold handleTimeUp. now rewrite Hs.
Qed.

(** ** Invariant of the published snapshots *)

Section Invariant.

Lemma keeps_publish (a a0 : App) (newState : SharedGameState) :
  published a0 = published a -> snapshotInv newState ->
  exists l, published (setSharedState (Some newState) (saveSharedState newState a0))
            = published a ++ l
            /\ Forall snapshotInv l
            /\ (forall s', sharedState (setSharedState (Some newState)
                                          (saveSharedState newState a0)) = Some s' ->
                           snapshotInv s').
Proof.
  intros Hpub Hnew. exists [newState]. simpl. rewrite Hpub.
  split; [reflexivity|].
  split; [now apply Forall_singleton | intros s' [= <-]; exact Hnew].
Qed.

Lemma handleJoinOrLeaveTeam_preserves (forceLeave : bool) :
  preserves (handleJoinOrLeaveTeam forceLeave).
Proof.
  intros a Hinv. unfold handleJoinOrLeaveTeam.
  destruct (loggedIn a) as [cur|]; [|keep_same Hinv].
  destruct (sharedState a) as [s|] eqn:Hs; [|keep_same Hinv].
  destruct (Hinv s eq_refl) as [Hphase Hnd].
  apply keeps_publish; [reflexivity|]. split; [exact Hphase|]. simpl.
  destruct forceLeave; [now apply NoDup_filter|].
  destruct (bool_decide (cur ∈ team s)) eqn:Hmem; [now apply NoDup_filter|].
  apply bool_decide_eq_false in Hmem.
  apply NoDup_app. split; [exact Hnd|]. split; [|apply NoDup_singleton].
  intros k Hk Hk'. apply list_elem_of_singleton in Hk'. now subst.
Qed.

(** The resumed [handleStartGame] publishes from the snapshot it captured,
    on whatever client it resumes. *)
Lemma handleStartGame_resume_preserves (captured : SharedGameState)
    (gen : GenResult) (now : Z) :
  snapshotInv captured ->
  preserves (handleStartGame_resume (Some captured) gen now).
Proof.
  intros [Hphase Hnd] a Hinv. unfold handleStartGame_resume.
  destruct (generatePuzzle gen) as [pz|]; [|keep_same Hinv].
  apply keeps_publish; [reflexivity|].
  split; [split; simpl; eauto | exact Hnd].
Qed.

Lemma handleStartGame_preserves (gen : GenResult) (now : Z) :
  preserves (handleStartGame gen now).
Proof.
  intros a Hinv. unfold handleStartGame, handleStartGame_click.
  destruct (sharedState a) as [s|] eqn:Hs.
  - destruct (handleStartGame_resume_preserves s gen now (Hinv s eq_refl)
                (setLocalView loading a)) as (l & Hl & Hall & Hsh).
    + intros s0 Hs0. apply Hinv. simpl in Hs0. congruence.
    + exists l. split; [exact Hl|]. split; [exact Hall | exact Hsh].
  - unfold handleStartGame_resume.
    destruct (generatePuzzle gen); keep_same Hinv.
Qed.

Lemma handleWin_preserves : preserves handleWin.
Proof.
  intros a Hinv. unfold handleWin.
  destruct (sharedState a) as [s|] eqn:Hs; [|keep_same Hinv].
  destruct (Hinv s eq_refl) as [Hphase Hnd].
  destruct (view s) eqn:Hv; try (keep_same Hinv).
  apply keeps_publish; [reflexivity|].
  unfold phaseConsistent in Hphase. rewrite Hv in Hphase.
  split; [exact Hphase | exact Hnd].
Qed.

Lemma handleTimeUp_preserves : preserves handleTimeUp.
Proof.
  intros a Hinv. unfold handleTimeUp.
  destruct (sharedState a) as [s|] eqn:Hs; [|keep_same Hinv].
  destruct (Hinv s eq_refl) as [Hphase Hnd].
  destruct (view s) eqn:Hv; try (keep_same Hinv).
  apply keeps_publish; [reflexivity|].
  unfold phaseConsistent in Hphase. rewrite Hv in Hphase.
  split; [exact Hphase | exact Hnd].
Qed.

Lemma handleBackToLobby_preserves : preserves handleBackToLobby.
Proof.
  intros a Hinv. unfold handleBackToLobby, resetSharedState, getSharedState.
  simpl sharedStorage.
  apply keeps_publish; [reflexivity|].
  split; [split; reflexivity | apply NoDup_nil_2].
Qed.

(** [handlePuzzleChange] as [GameScreen] calls it, on a client whose
    snapshot has a puzzle: [GameScreen] is given [sharedState.puzzle]. *)
Lemma handlePuzzleChange_keeps (newPuzzle pz : Puzzle.t) (s : SharedGameState)
    (a : App) :
  sharedState a = Some s -> puzzle s = Some pz ->
  (forall s0, sharedState a = Some s0 -> snapshotInv s0) ->
  exists l, published (handlePuzzleChange newPuzzle a) = published a ++ l
            /\ Forall snapshotInv l
            /\ (forall s', sharedState (handlePuzzleChange newPuzzle a) = Some s' ->
                           snapshotInv s').
Proof.
  intros Hs Hp Hinv. unfold handlePuzzleChange. rewrite Hs.
  destruct (Hinv s Hs) as [Hphase Hnd].
  apply keeps_publish; [reflexivity|].
  split; [|exact Hnd]. unfold phaseConsistent in *. simpl.
  destruct (view s).
  - destruct Hphase as [Hnone _]. congruence.
  - split; [eauto | apply Hphase].
  - split; [eauto | apply Hphase].
  - split; [eauto | apply Hphase].
Qed.

Lemma perform_preserves (act : Action) : preserves (perform act).
Proof.
  intros a Hinv. destruct act; simpl.
  - now apply handleJoinOrLeaveTeam_preserves.
  - destruct (sharedState a) as [s|] eqn:Hs; [|keep_same Hinv].
    unfold LobbyScreen_startButton.
    destruct (canStartGame (team s)); [|keep_same Hinv].
    apply handleStartGame_preserves. intros s0 Hs0. apply Hinv. congruence.
  - destruct (sharedState a) as [s|] eqn:Hs; [|keep_same Hinv].
    destruct (puzzle s) as [pz|] eqn:Hp; [|keep_same Hinv].
    unfold GameScreen_dragEnd.
    destruct (handleDragEnd pz dragging newX newY); try (keep_same Hinv).
    apply (handlePuzzleChange_keeps _ pz s); [exact Hs | exact Hp |].
    intros s0 Hs0. apply Hinv. congruence.
  - destruct (sharedState a) as [s|] eqn:Hs; [|keep_same Hinv].
    destruct (puzzle s) as [pz|] eqn:Hp; [|keep_same Hinv].
    unfold GameScreen_checkWin.
    destruct (checkWinCondition pz); [|keep_same Hinv].
    apply handleWin_preserves. intros s0 Hs0. apply Hinv. congruence.
  - now apply handleTimeUp_preserves.
  - now apply handleBackToLobby_preserves.
Qed.

Lemma reachable_snapshotInv (s : SharedGameState) :
  reachable s -> snapshotInv s.
Proof.
  induction 1 as [|s s' a act Hreach IH Hs Hpub].
  - split; [split; reflexivity | apply NoDup_nil_2].
  - assert (Hinv : forall s0, sharedState a = Some s0 -> snapshotInv s0)
      by (intros s0 Hs0; congruence).
    destruct (perform_preserves act a Hinv) as (l & Hl & Hall & _).
    unfold publishedBy in Hpub. rewrite Hl, drop_app_length in Hpub.
    rewrite Forall_forall in Hall. now apply Hall.
Qed.

End Invariant.

(** ** Starting a game *)

Lemma canStartGame_false (tm : list string) :
  (length tm < MIN_PLAYERS \/ MAX_PLAYERS < length tm)%nat ->
  canStartGame tm = false.
Proof.
  unfold canStartGame, MIN_PLAYERS, MAX_PLAYERS. intros H.
  apply andb_false_iff.
  destruct H; [left; apply Nat.leb_gt | right; apply Nat.leb_gt]; lia.
Qed.

Lemma publishedBy_same (h : App -> App) (a : App) :
  h a = a -> publishedBy h a = [].
Proof. intros H. unfold publishedBy. rewrite H. apply drop_all. Qed.

(** C1: with the session in the lobby and a team size outside
    [MIN_PLAYERS, MAX_PLAYERS], a start request is a no-op.  The request
    reaches [handleStartGame] through the start button of [LobbyScreen]
    only, which is disabled on such a team: the client stays as it was, so
    the phase is still lobby, no puzzle and no start time are recorded, and
    nothing is published. *)
Theorem startGame_gated_by_lobby (a : App) (s : SharedGameState)
    (gen : GenResult) (now : Z) :
  sharedState a = Some s -> view s = lobby ->
  (length (team s) < MIN_PLAYERS \/ MAX_PLAYERS < length (team s))%nat ->
  LobbyScreen_startButton (team s) (handleStartGame gen now) a = a
  /\ perform (ActStartGame gen now) a = a
  /\ dispatch (EvStartGame gen now) a = a
  /\ publishedBy (perform (ActStartGame gen now)) a = []
  /\ sharedState (perform (ActStartGame gen now) a) = Some s.
Proof.
  intros Hs Hv Hsize.
  assert (Hbtn : LobbyScreen_startButton (team s) (handleStartGame gen now) a = a).
  { unfold LobbyScreen_startButton. now rewrite (canStartGame_false _ Hsize). }
  assert (Hact : perform (ActStartGame gen now) a = a).
  { simpl. now rewrite Hs. }
  split; [exact Hbtn|]. split; [exact Hact|]. split; [|split].
  - rewrite dispatch_handleEvent. now apply handleEvent_switch_only.
  - now apply publishedBy_same.
  - now rewrite Hact.
Qed.

(** ** Winning moves *)

Lemma handlePuzzleChange_publishes (newPuzzle : Puzzle.t) (a : App)
    (s : SharedGameState) :
  sharedState a = Some s ->
  handlePuzzleChange newPuzzle a
  = setSharedState (Some (mkShared (view s) (team s) (Some newPuzzle) (gameStartTime s)))
      (saveSharedState (mkShared (view s) (team s) (Some newPuzzle) (gameStartTime s)) a).
Proof. intros Hs. unfold handlePuzzleChange. now rewrite Hs. Qed.

(** C2 (as amended): a move that leaves the puzzle solved is published in
    two snapshots.  The end of the drag calls [handlePuzzleChange], which
    publishes the solved puzzle with the phase still [game] and makes it the
    client's shared state; the effect of [GameScreen] that checks the win
    condition on the new puzzle then calls [handleWin], which publishes the
    same with phase [win]. *)
Theorem winning_move_two_snapshots (a : App) (s : SharedGameState)
    (pz newPuzzle : Puzzle.t) (dragging : Dragging) (newX newY : Q) :
  sharedState a = Some s -> view s = game ->
  handleDragEnd pz dragging newX newY = DragPuzzleChange newPuzzle ->
  checkWinCondition newPuzzle = true ->
  let moved := GameScreen_dragEnd pz handlePuzzleChange dragging newX newY a in
  let solvedInPlay := mkShared game (team s) (Some newPuzzle) (gameStartTime s) in
  let won := mkShared win (team s) (Some newPuzzle) (gameStartTime s) in
  moved = handlePuzzleChange newPuzzle a
  /\ publishedBy (GameScreen_dragEnd pz handlePuzzleChange dragging newX newY) a
     = [solvedInPlay]
  /\ sharedState moved = Some solvedInPlay
  /\ sharedStorage moved = Some solvedInPlay
  /\ GameScreen_checkWin newPuzzle handleWin moved = handleWin moved
  /\ publishedBy handleWin moved = [won]
  /\ sharedState (handleWin moved) = Some won
  /\ published (handleWin moved) = published a ++ [solvedInPlay; won].
Proof.
  intros Hs Hv Hdrag Hwin moved solvedInPlay won.
  assert (Hmoved : moved = handlePuzzleChange newPuzzle a).
  { unfold moved, GameScreen_dragEnd. now rewrite Hdrag. }
  assert (Hshape : moved = setSharedState (Some solvedInPlay)
                             (saveSharedState solvedInPlay a)).
  { rewrite Hmoved, (handlePuzzleChange_publishes newPuzzle a s Hs).
    unfold solvedInPlay. now rewrite Hv. }
  split; [exact Hmoved|].
  split.
  { unfold publishedBy. fold moved. rewrite Hshape. simpl.
    apply drop_app_length. }
  split; [now rewrite Hshape|].
  split; [now rewrite Hshape|].
  split.
  { unfold GameScreen_checkWin. now rewrite Hwin. }
  rewrite Hshape. unfold handleWin, publishedBy. simpl.
  split; [apply drop_app_length|]. split; [reflexivity|].
  now rewrite <- app_assoc.
Qed.

(** C2, counterexample: the snapshot published by the end of the winning
    drag shows the solved puzzle with the phase still [game]. *)
Lemma winning_drag_not_atomic :
  ~ moveAtomic oneMoveLeft winningDragging winningX winningY
      (clientOf "ana" almostWonState).
Proof.
  intros H.
  apply (H (mkShared game sampleTeam (Some oneMoveLeftSolved) (Some 1000))
           oneMoveLeftSolved); try reflexivity.
  vm_compute. apply list_elem_of_here.
Qed.

(** ** Reachable snapshots *)

Lemma reachable_playingState : reachable playingState.
Proof.
  assert (H1 : reachable (mkShared lobby ["ana"] None None)).
  { apply (reach_publish lobbyState _ (clientOf "ana" lobbyState)
                         (ActJoinOrLeave false) reach_init eq_refl).
    vm_compute. apply list_elem_of_here. }
  assert (H2 : reachable twoPlayerLobby).
  { apply (reach_publish _ _ (clientOf "bo" _) (ActJoinOrLeave false) H1 eq_refl).
    vm_compute. apply list_elem_of_here. }
  assert (H3 : reachable sampleLobby).
  { apply (reach_publish _ _ (clientOf "cy" _) (ActJoinOrLeave false) H2 eq_refl).
    vm_compute. apply list_elem_of_here. }
  apply (reach_publish _ _ (clientOf "ana" _) (ActStartGame GenThrows 1000) H3 eq_refl).
  vm_compute. apply list_elem_of_here.
Qed.

Lemma reachable_expiredState : reachable expiredState.
Proof.
  apply (reach_publish _ _ (clientOf "bo" _) ActTimeUp
                       reachable_playingState eq_refl).
  vm_compute. apply list_elem_of_here.
Qed.

(** C3 (as amended): in every snapshot reachable from the lobby snapshot by
    the transitions (join and leave, start from the lobby's start button, a
    move resolved on the snapshot's puzzle, the win check, expiry, back to
    the lobby), performed by any client on the snapshot it holds, puzzle and
    start time are both absent when the phase is lobby and both present when
    it is game, win or timesup: expiry keeps them. *)
Theorem reachable_phaseConsistent (s : SharedGameState) :
  reachable s -> phaseConsistent s.
Proof. intros H. exact (proj1 (reachable_snapshotInv s H)). Qed.

(** C3, counterexample: the snapshot published on expiry is reachable and
    still holds the puzzle and the start time. *)
Lemma expired_keeps_puzzle :
  ~ (forall s, reachable s -> presentOnlyInPlay s).
Proof.
  intros H. destruct (H expiredState reachable_expiredState) as [Hp _].
  discriminate Hp.
Qed.

(** * The theorems at sample inputs *)

(** A lobby of two: the start button does nothing. *)
Lemma startGame_gated_by_lobby_witness :
  LobbyScreen_startButton ["ana"; "bo"] (handleStartGame GenThrows 1000)
    (clientOf "ana" twoPlayerLobby)
  = clientOf "ana" twoPlayerLobby
  /\ perform (ActStartGame GenThrows 1000) (clientOf "ana" twoPlayerLobby)
     = clientOf "ana" twoPlayerLobby
  /\ dispatch (EvStartGame GenThrows 1000) (clientOf "ana" twoPlayerLobby)
     = clientOf "ana" twoPlayerLobby
  /\ publishedBy (perform (ActStartGame GenThrows 1000))
       (clientOf "ana" twoPlayerLobby) = []
  /\ sharedState (perform (ActStartGame GenThrows 1000)
                    (clientOf "ana" twoPlayerLobby)) = Some twoPlayerLobby.
Proof.
  apply (startGame_gated_by_lobby (clientOf "ana" twoPlayerLobby)
           twoPlayerLobby GenThrows 1000 eq_refl eq_refl).
  left. unfold MIN_PLAYERS. simpl. lia.
Defined.

(** The last move on [oneMoveLeft] publishes the move, then the win. *)
Lemma winning_move_two_snapshots_witness :
  publishedBy (GameScreen_dragEnd oneMoveLeft handlePuzzleChange
                 winningDragging winningX winningY)
    (clientOf "ana" almostWonState)
  = [ mkShared game sampleTeam (Some oneMoveLeftSolved) (Some 1000) ]
  /\ published
       (handleWin (GameScreen_dragEnd oneMoveLeft handlePuzzleChange
                     winningDragging winningX winningY
                     (clientOf "ana" almostWonState)))
     = [ mkShared game sampleTeam (Some oneMoveLeftSolved) (Some 1000); wonState ].
Proof.
  destruct (winning_move_two_snapshots (clientOf "ana" almostWonState)
              almostWonState oneMoveLeft oneMoveLeftSolved
              winningDragging winningX winningY eq_refl eq_refl eq_refl eq_refl)
    as (_ & Hfirst & _ & _ & _ & _ & _ & Hlog).
  split; [exact Hfirst | exact Hlog].
Defined.

(** The snapshot published on expiry. *)
Lemma reachable_phaseConsistent_witness : phaseConsistent expiredState.
Proof.
  apply (reachable_phaseConsistent expiredState). exact reachable_expiredState.
Defined.

(** A free corridor of two cells on the fallback board; a drag of three
    cells with one free cell before a neighbour. *)
Lemma resolveMove_corridor_witness :
  resolveMove fallbackPuzzle (Piece.mk 9 0 4 1 1 false) 2 0 = (2, 4)
  /\ resolveMove corridorPuzzle (Piece.mk 1 0 0 1 1 false) 3 0 = (1, 0).
Proof.
  split.
  - apply (proj1 (resolveMove_corridor fallbackPuzzle (Piece.mk 9 0 4 1 1 false) 2 0)).
    intros i Hi. change (1 <= i <= 2) in Hi.
    destruct (Z.eq_dec i 1) as [->|Hne]; [reflexivity|].
    assert (i = 2) as -> by lia. reflexivity.
  - apply (proj2 (resolveMove_corridor corridorPuzzle (Piece.mk 1 0 0 1 1 false) 3 0) 1).
    + change (0 <= 1 < 3). lia.
    + intros i Hi. assert (i = 1) as -> by lia. reflexivity.
    + reflexivity.
Defined.

(** Piece 9 of the fallback board, at (0,4), dragged to (2.3, 4.2). *)
Lemma handleDragEnd_final_legal_witness :
  exists piece final,
    handleDragEnd_final fallbackPuzzle (mkDragging 9 0 4) (23 # 10)%Q (21 # 5)%Q
    = Some (piece, final)
    /\ piece ∈ Puzzle.pieces fallbackPuzzle
    /\ Piece.id piece = 9
    /\ blockedAt fallbackPuzzle piece final = false
    /\ blockedAt fallbackPuzzle piece (Piece.x piece, Piece.y piece) = false
    /\ handleDragEnd fallbackPuzzle (mkDragging 9 0 4) (23 # 10)%Q (21 # 5)%Q
       <> DragThrows.
Proof.
  apply (handleDragEnd_final_legal fallbackPuzzle (mkDragging 9 0 4)
           (23 # 10)%Q (21 # 5)%Q (Piece.mk 9 0 4 1 1 false));
    try reflexivity.
  apply list_elem_of_In. simpl. tauto.
Defined.

(** Streaks after a win and after expiry, on a team with a member that the
    client has no record of. *)
Lemma team_streaks_on_win_and_timeup_witness :
  players (handleWin (clientOf "ana" strangerState)) !! "ana" = Some (Player.mk "ana" 3)
  /\ players (handleWin (clientOf "ana" strangerState)) !! "zed" = None
  /\ playersStorage (handleWin (clientOf "ana" strangerState))
     = players (handleWin (clientOf "ana" strangerState))
  /\ players (handleTimeUp (clientOf "ana" strangerState)) !! "ana"
     = Some (Player.mk "ana" 0)
  /\ players (handleTimeUp (clientOf "ana" strangerState)) !! "cy"
     = Some (Player.mk "cy" 5)
  /\ view <$> sharedState (handleTimeUp (clientOf "ana" strangerState))
     = Some timesup.
Proof.
  destruct (team_streaks_on_win_and_timeup (clientOf "ana" strangerState)
              strangerState eq_refl eq_refl)
    as [(_ & Hwin & Hskip & _ & Hstore) (Hview & Hzero & _ & Hout & _)].
  - apply (bool_decide_unpack _). vm_compute. exact I.
  - split; [|split; [|split; [|split; [|split]]]].
    + apply (Hwin "ana" (Player.mk "ana" 2)); [apply list_elem_of_here | reflexivity].
    + apply (Hskip "zed"); [|reflexivity].
      apply list_elem_of_further, list_elem_of_here.
    + exact Hstore.
    + apply (Hzero "ana" (Player.mk "ana" 2)); [apply list_elem_of_here | reflexivity].
    + rewrite (Hout "cy"); [reflexivity|].
      apply (bool_decide_unpack _). vm_compute. exact I.
    + now rewrite Hview.
Defined.

(** Expiry fired again on an expired session, and twice on a playing one. *)
Lemma handleTimeUp_idempotent_witness :
  handleTimeUp (clientOf "ana" expiredState) = clientOf "ana" expiredState
  /\ dispatch (EvTimerTick 7201000) (clientOf "ana" expiredState)
     = clientOf "ana" expiredState
  /\ Timer_interval 7201000 1000 handleTimeUp (clientOf "ana" expiredState)
     = clientOf "ana" expiredState
  /\ handleTimeUp (handleTimeUp (clientOf "ana" playingState))
     = handleTimeUp (clientOf "ana" playingState).
Proof.
  destruct (proj1 (handleTimeUp_idempotent (clientOf "ana" expiredState)))
    as (Hsame & Htick & Hint).
  - intros s [= <-]. discriminate.
  - split; [exact Hsame|]. split; [exact (Htick 7201000)|].
    split; [exact (Hint 7201000 1000)|].
    apply (proj2 (handleTimeUp_idempotent (clientOf "ana" playingState))).
Defined.

(** The solved board, and the same board with its pieces swapped. *)
Lemma checkWinCondition_goal_witness :
  checkWinCondition oneMoveLeftSolved = true
  /\ checkWinCondition (withPieces oneMoveLeftSolved
                          [Piece.mk 2 0 0 1 1 false; Piece.mk 1 1 3 2 2 true])
     = checkWinCondition oneMoveLeftSolved.
Proof.
  destruct (checkWinCondition_goal oneMoveLeftSolved (Piece.mk 1 1 3 2 2 true) eq_refl)
    as [Hiff Hperm].
  split.
  - apply Hiff. reflexivity.
  - apply Hperm. apply perm_swap.
Defined.

(** A team member without a record gets none, and the session still ends. *)
Lemma streak_updates_keep_ids_witness :
  dom (players (handleWin (clientOf "ana" strangerState))) = dom samplePlayers
  /\ players (handleWin (clientOf "ana" strangerState)) !! "zed" = None
  /\ view <$> sharedState (handleWin (clientOf "ana" strangerState)) = Some win
  /\ view <$> sharedState (handleTimeUp (clientOf "ana" strangerState)) = Some timesup.
Proof.
  destruct (streak_updates_keep_ids (clientOf "ana" strangerState))
    as (Hdom & _ & Hnone & Hview).
  split; [exact Hdom|].
  split; [exact (proj1 (Hnone "zed" eq_refl))|].
  exact (Hview strangerState eq_refl eq_refl).
Defined.

(** * Board model and move resolver: further properties *)

Section BoardGeometry.

(** X1: for rectangles of positive size, the test of [isOccupied] against a
    piece holds exactly when the rectangle and the piece share a cell. *)
Theorem overlaps_iff_shared_cell (x y w h : Z) (p : Piece.t) :
  0 < w -> 0 < h -> 0 < Piece.width p -> 0 < Piece.height p ->
  (overlaps x y w h p = true <->
   exists cx cy, rectHolds x y w h cx cy /\ coversCell cx cy p = true).
Proof.
  intros Hw Hh Hpw Hph. unfold overlaps, coversCell, rectHolds.
  rewrite negb_true_iff, !orb_false_iff, !Z.geb_leb, !Z.leb_gt. split.
  - intros (((H1 & H2) & H3) & H4).
    exists (Z.max x (Piece.x p)), (Z.max y (Piece.y p)).
    rewrite !andb_true_iff, !Z.leb_le, !Z.ltb_lt. lia.
  - intros (cx & cy & Hin & Hc).
    rewrite !andb_true_iff, !Z.leb_le, !Z.ltb_lt in Hc. lia.
Qed.

Lemma isOccupied_free_spec (puzzle : Puzzle.t) (x y w h excludeId : Z) :
  isOccupied puzzle x y w h excludeId = false <->
  (0 <= x /\ 0 <= y /\ x + w <= Puzzle.boardWidth puzzle
   /\ y + h <= Puzzle.boardHeight puzzle)
  /\ (forall q, q ∈ Puzzle.pieces puzzle -> Piece.id q <> excludeId ->
        x + w <= Piece.x q \/ Piece.x q + Piece.width q <= x
        \/ y + h <= Piece.y q \/ Piece.y q + Piece.height q <= y).
Proof.
  unfold isOccupied. rewrite !Z.gtb_ltb.
  destruct (Z.ltb_spec x 0); simpl; [split; [discriminate | lia]|].
  destruct (Z.ltb_spec y 0); simpl; [split; [discriminate | lia]|].
  destruct (Z.ltb_spec (Puzzle.boardWidth puzzle) (x + w)); simpl;
    [split; [discriminate | lia]|].
  destruct (Z.ltb_spec (Puzzle.boardHeight puzzle) (y + h)); simpl;
    [split; [discriminate | lia]|].
  rewrite isOccupied_loop_false. split.
  - intros Hloop. split; [lia|]. intros q Hq Hid.
    specialize (Hloop q Hq Hid). unfold overlaps in Hloop.
    rewrite negb_false_iff, !orb_true_iff, !Z.geb_leb, !Z.leb_le in Hloop. lia.
  - intros [_ Hall] q Hq Hid. specialize (Hall q Hq Hid). unfold overlaps.
    rewrite negb_false_iff, !orb_true_iff, !Z.geb_leb, !Z.leb_le. lia.
Qed.

(** X2: [isOccupied] reports a rectangle free exactly when it lies within
    the board and is apart, on one side at least, from every piece whose id
    is not the excluded one. *)
Theorem isOccupied_false_iff (puzzle : Puzzle.t) (x y w h excludeId : Z) :
  isOccupied puzzle x y w h excludeId = false <->
  (0 <= x /\ 0 <= y /\ x + w <= Puzzle.boardWidth puzzle
   /\ y + h <= Puzzle.boardHeight puzzle)
  /\ (forall q, q ∈ Puzzle.pieces puzzle -> Piece.id q <> excludeId ->
        x + w <= Piece.x q \/ Piece.x q + Piece.width q <= x
        \/ y + h <= Piece.y q \/ Piece.y q + Piece.height q <= y).
Proof. apply isOccupied_free_spec. Qed.

End BoardGeometry.

Section Corridor.

Variable puzzle : Puzzle.t.
Variable piece : Piece.t.
Variables dx dy : Z.

(** The first blocked offset of a corridor of [n] steps, or [n]. *)
Lemma first_blocked (occ : Z -> bool) (n : nat) :
  exists k : nat, (k <= n)%nat
    /\ (forall i, 1 <= i <= Z.of_nat k -> occ i = false)
    /\ ((k < n)%nat -> occ (Z.of_nat k + 1) = true).
Proof.
  induction n as [|n (k & Hk & Hfree & Hblock)].
  - exists O. split; [lia|]. split; [intros i Hi; lia | lia].
  - destruct (Nat.eq_dec k n) as [->|Hne].
    + destruct (occ (Z.of_nat n + 1)) eqn:Hocc.
      * exists n. split; [lia|]. split; [exact Hfree | intros _; exact Hocc].
      * exists (S n). split; [lia|]. split; [|lia].
        intros i Hi. destruct (Z.eq_dec i (Z.of_nat n + 1)) as [->|Hi'];
          [exact Hocc | apply Hfree; lia].
    + exists k. split; [lia|]. split; [exact Hfree | intros _; apply Hblock; lia].
Qed.

Lemma resolveMove_stops :
  exists k, 0 <= k <= Z.abs (axisDisplacement dx dy)
    /\ (forall i, 1 <= i <= k ->
          blockedAt puzzle piece
            (shifted piece dx dy (i * Z.sgn (axisDisplacement dx dy))) = false)
    /\ (k < Z.abs (axisDisplacement dx dy) ->
          blockedAt puzzle piece
            (shifted piece dx dy ((k + 1) * Z.sgn (axisDisplacement dx dy))) = true)
    /\ resolveMove puzzle piece dx dy
       = shifted piece dx dy (k * Z.sgn (axisDisplacement dx dy)).
Proof.
  destruct (first_blocked
              (fun i => blockedAt puzzle piece
                          (shifted piece dx dy (i * Z.sgn (axisDisplacement dx dy))))
              (Z.to_nat (Z.abs (axisDisplacement dx dy))))
    as (k & Hk & Hfree & Hblock).
  exists (Z.of_nat k).
  assert (Hrange : 0 <= Z.of_nat k <= Z.abs (axisDisplacement dx dy)) by lia.
  split; [exact Hrange|]. split; [exact Hfree|].
  assert (Hb : Z.of_nat k < Z.abs (axisDisplacement dx dy) ->
               blockedAt puzzle piece
                 (shifted piece dx dy
                    ((Z.of_nat k + 1) * Z.sgn (axisDisplacement dx dy))) = true)
    by (intros Hlt; apply Hblock; lia).
  split; [exact Hb|].
  now apply resolveMove_prefix.
Qed.

(** X3: the resolver always stops at the end of the free prefix of the
    corridor: for some [k] between 0 and the requested number of cells, the
    offsets 1 to [k] are free, offset [k + 1] is obstructed unless [k] is the
    whole request, and the result is the start shifted by [k] cells in the
    direction of the drag along the axis of the move. *)
Theorem resolveMove_maximal :
  exists k, 0 <= k <= Z.abs (axisDisplacement dx dy)
    /\ (forall i, 1 <= i <= k ->
          blockedAt puzzle piece
            (shifted piece dx dy (i * Z.sgn (axisDisplacement dx dy))) = false)
    /\ (k < Z.abs (axisDisplacement dx dy) ->
          blockedAt puzzle piece
            (shifted piece dx dy ((k + 1) * Z.sgn (axisDisplacement dx dy))) = true)
    /\ resolveMove puzzle piece dx dy
       = shifted piece dx dy (k * Z.sgn (axisDisplacement dx dy)).
Proof. exact resolveMove_stops. Qed.

(** X4: a piece that stands within the board is left within the board by
    the resolver, whatever the drag and whatever the other pieces. *)
Theorem resolveMove_in_board :
  inBounds puzzle piece = true ->
  0 <= (resolveMove puzzle piece dx dy).1
  /\ 0 <= (resolveMove puzzle piece dx dy).2
  /\ (resolveMove puzzle piece dx dy).1 + Piece.width piece
     <= Puzzle.boardWidth puzzle
  /\ (resolveMove puzzle piece dx dy).2 + Piece.height piece
     <= Puzzle.boardHeight puzzle.
Proof.
  intros Hin. unfold inBounds in Hin.
  rewrite !andb_true_iff, !Z.leb_le in Hin.
  destruct resolveMove_stops as (k & Hk & Hfree & _ & ->).
  destruct (Z.eq_dec k 0) as [->|Hne].
  - unfold shifted. destruct (horizontalMove dx dy); simpl; lia.
  - specialize (Hfree k ltac:(lia)). unfold blockedAt in Hfree.
    apply isOccupied_free_spec in Hfree. tauto.
Qed.

End Corridor.

Section MovedBoard.

Variables (i fx fy w h : Z).

Lemma movePiece_id (p : Piece.t) : Piece.id (movePiece i fx fy p) = Piece.id p.
Proof. unfold movePiece. destruct (Piece.id p =? i); reflexivity. Qed.

Lemma movePiece_other (p : Piece.t) : Piece.id p <> i -> movePiece i fx fy p = p.
Proof. unfold movePiece. intros H. now apply Z.eqb_neq in H as ->. Qed.

Lemma movePiece_same (p : Piece.t) :
  Piece.id p = i ->
  movePiece i fx fy p
  = Piece.mk (Piece.id p) fx fy (Piece.width p) (Piece.height p) (Piece.isGoal p).
Proof. unfold movePiece. intros H. now apply Z.eqb_eq in H as ->. Qed.

Lemma map_movePiece_ids (ps : list Piece.t) :
  map Piece.id (map (movePiece i fx fy) ps) = map Piece.id ps.
Proof.
  rewrite <- list_fmap_compose. apply list_fmap_ext.
  intros k p _. apply movePiece_id.
Qed.

Lemma nonOverlapping_moved (ps : list Piece.t) :
  nonOverlapping ps = true ->
  NoDup (map Piece.id ps) ->
  (forall q, q ∈ ps -> Piece.id q <> i -> overlaps fx fy w h q = false) ->
  (forall q, q ∈ ps -> Piece.id q = i -> Piece.width q = w /\ Piece.height q = h) ->
  nonOverlapping (map (movePiece i fx fy) ps) = true.
Proof.
  induction ps as [|p rest IH]; [reflexivity|].
  intros Hno Hnd Hfree Hsize. cbn [nonOverlapping map] in *.
  apply andb_true_iff in Hno as [Hp Hrest].
  apply NoDup_cons in Hnd as [Hpid Hnd].
  apply andb_true_iff. split.
  - apply forallb_forall. intros q' Hq'. apply in_map_iff in Hq' as (q & <- & Hq).
    rewrite forallb_forall in Hp. pose proof (Hp q Hq) as Hpq.
    apply list_elem_of_In in Hq.
    destruct (Z.eq_dec (Piece.id p) i) as [Hpi|Hpi].
    + assert (Hqi : Piece.id q <> i).
      { intros Hqi. apply Hpid. rewrite Hpi, <- Hqi. now apply list_elem_of_fmap_2. }
      rewrite (movePiece_other q Hqi), (movePiece_same p Hpi).
      destruct (Hsize p ltac:(left) Hpi) as [-> ->].
      unfold disjointFrom. simpl. apply negb_true_iff.
      apply Hfree; [now right | exact Hqi].
    + rewrite (movePiece_other p Hpi).
      destruct (Z.eq_dec (Piece.id q) i) as [Hqi|Hqi].
      * rewrite (movePiece_same q Hqi).
        destruct (Hsize q ltac:(now right) Hqi) as [-> ->].
        unfold disjointFrom. rewrite overlaps_sym. simpl. apply negb_true_iff.
        apply Hfree; [left | exact Hpi].
      * now rewrite (movePiece_other q Hqi).
  - apply IH; try assumption.
    + intros q Hq. apply Hfree. now right.
    + intros q Hq. apply Hsize. now right.
Qed.

Lemma find_goal_moved (ps : list Piece.t) :
  (forall p, p ∈ ps -> Piece.id p = i -> Piece.isGoal p = false) ->
  List.find Piece.isGoal (map (movePiece i fx fy) ps) = List.find Piece.isGoal ps.
Proof.
  induction ps as [|p rest IH]; [reflexivity|]. intros Hng. cbn [map List.find].
  assert (IH' : List.find Piece.isGoal (map (movePiece i fx fy) rest)
                = List.find Piece.isGoal rest)
    by (apply IH; intros q Hq; apply Hng; now right).
  destruct (Z.eq_dec (Piece.id p) i) as [Hpi|Hpi].
  - rewrite (movePiece_same p Hpi). simpl.
    rewrite (Hng p ltac:(left) Hpi). exact IH'.
  - rewrite (movePiece_other p Hpi). now rewrite IH'.
Qed.

End MovedBoard.

Lemma unique_id_elem (ps : list Piece.t) (p q : Piece.t) :
  NoDup (map Piece.id ps) -> p ∈ ps -> q ∈ ps -> Piece.id p = Piece.id q -> p = q.
Proof.
  induction ps as [|r rest IH]; intros Hnd Hp Hq Hid; [inversion Hp|].
  cbn [map] in Hnd. apply NoDup_cons in Hnd as [Hr Hnd].
  apply elem_of_cons in Hp as [->|Hp]; apply elem_of_cons in Hq as [->|Hq].
  - reflexivity.
  - exfalso. apply Hr. rewrite Hid. now apply list_elem_of_fmap_2.
  - exfalso. apply Hr. rewrite <- Hid. now apply list_elem_of_fmap_2.
  - now apply IH.
Qed.

(** What [handleDragEnd] hands to [onPuzzleChange]. *)
Lemma handleDragEnd_change (puzzle newPuzzle : Puzzle.t) (dragging : Dragging)
    (newX newY : Q) :
  handleDragEnd puzzle dragging newX newY = DragPuzzleChange newPuzzle ->
  exists piece final,
    handleDragEnd_final puzzle dragging newX newY = Some (piece, final)
    /\ piece ∈ Puzzle.pieces puzzle
    /\ Piece.id piece = drag_id dragging
    /\ final <> (Piece.x piece, Piece.y piece)
    /\ newPuzzle
       = withPieces puzzle
           (map (movePiece (drag_id dragging) final.1 final.2) (Puzzle.pieces puzzle)).
Proof.
  unfold handleDragEnd.
  destruct (handleDragEnd_final puzzle dragging newX newY)
    as [[piece [finalX finalY]]|] eqn:Hfinal; [|discriminate].
  destruct (negb (finalX =? Piece.x piece) || negb (finalY =? Piece.y piece)) eqn:Hmoved;
    [|discriminate].
  intros [= <-]. exists piece, (finalX, finalY).
  unfold handleDragEnd_final in Hfinal.
  destruct (List.find _ _) as [piece'|] eqn:Hfind; [|discriminate].
  destruct (dragTarget newX newY) as [targetX targetY].
  injection Hfinal as -> Hres.
  apply find_some in Hfind as [Hin Hid].
  split; [reflexivity|]. split; [now apply list_elem_of_In|].
  split; [now apply Z.eqb_eq|]. split; [|reflexivity].
  intros [= -> ->]. rewrite !Z.eqb_refl in Hmoved. discriminate.
Qed.

(** X5: a move keeps a board well formed.  When the pieces are in bounds,
    pairwise non-overlapping and have distinct ids, the puzzle that
    [handleDragEnd] publishes is again so; board size, goal position and the
    ids of the pieces are unchanged, and every piece but the dragged one is
    where it was. *)
Theorem handleDragEnd_keeps_wellFormed (puzzle newPuzzle : Puzzle.t)
    (dragging : Dragging) (newX newY : Q) :
  wellFormed puzzle ->
  handleDragEnd puzzle dragging newX newY = DragPuzzleChange newPuzzle ->
  wellFormed newPuzzle
  /\ Puzzle.boardWidth newPuzzle = Puzzle.boardWidth puzzle
  /\ Puzzle.boardHeight newPuzzle = Puzzle.boardHeight puzzle
  /\ Puzzle.goalPosition newPuzzle = Puzzle.goalPosition puzzle
  /\ map Piece.id (Puzzle.pieces newPuzzle) = map Piece.id (Puzzle.pieces puzzle)
  /\ (forall k q, Puzzle.pieces puzzle !! k = Some q ->
        Piece.id q <> drag_id dragging ->
        Puzzle.pieces newPuzzle !! k = Some q).
Proof.
  intros (Hin & Hno & Hnd) Hdrag.
  destruct (handleDragEnd_change _ _ _ _ _ Hdrag)
    as (piece & [fx fy] & Hfinal & Hpiece & Hpid & _ & ->).
  simpl fst; simpl snd.
  assert (Hfree : blockedAt puzzle piece (fx, fy) = false).
  { unfold handleDragEnd_final in Hfinal.
    destruct (List.find _ _) as [piece'|]; [|discriminate].
    destruct (dragTarget newX newY) as [targetX targetY].
    injection Hfinal as -> Hres. rewrite <- Hres.
    apply resolveMove_legal. now apply start_not_occupied. }
  unfold blockedAt in Hfree. simpl in Hfree.
  pose proof Hfree as Hloop. apply isOccupied_free_spec in Hfree as [Hb _].
  unfold isOccupied in Hloop.
  destruct (_ || _ || _ || _) in Hloop; [discriminate|].
  rewrite isOccupied_loop_false in Hloop.
  assert (Hsame : forall q, q ∈ Puzzle.pieces puzzle -> Piece.id q = drag_id dragging ->
                            q = piece).
  { intros q Hq Hqid. apply (unique_id_elem _ _ _ Hnd Hq Hpiece). congruence. }
  unfold wellFormed, withPieces. simpl.
  split; [split; [|split]|].
  - apply forallb_forall. intros q' Hq'. apply in_map_iff in Hq' as (q & <- & Hq).
    rewrite forallb_forall in Hin. specialize (Hin q Hq).
    destruct (Z.eq_dec (Piece.id q) (drag_id dragging)) as [Hqi|Hqi].
    + rewrite (movePiece_same _ _ _ q Hqi).
      rewrite (Hsame q (proj2 (list_elem_of_In _ _) Hq) Hqi).
      unfold inBounds. simpl. rewrite !andb_true_iff, !Z.leb_le. lia.
    + now rewrite (movePiece_other _ _ _ q Hqi).
  - apply (nonOverlapping_moved _ _ _ (Piece.width piece) (Piece.height piece));
      try assumption.
    + intros q Hq Hqi. apply Hloop; [exact Hq | congruence].
    + intros q Hq Hqi. now rewrite (Hsame q Hq Hqi).
  - now rewrite map_movePiece_ids.
  - repeat (split; [reflexivity|]).
    split; [apply map_movePiece_ids|].
    intros k q Hk Hqi. rewrite list_lookup_fmap, Hk. simpl.
    now rewrite movePiece_other.
Qed.

(** X7: a move of a piece that is not goal-bearing leaves the outcome of
    [checkWinCondition] as it was: only a move of a goal piece can win. *)
Theorem nongoal_move_keeps_win_condition (puzzle newPuzzle : Puzzle.t)
    (dragging : Dragging) (newX newY : Q) :
  (forall p, p ∈ Puzzle.pieces puzzle -> Piece.id p = drag_id dragging ->
             Piece.isGoal p = false) ->
  handleDragEnd puzzle dragging newX newY = DragPuzzleChange newPuzzle ->
  checkWinCondition newPuzzle = checkWinCondition puzzle.
Proof.
  intros Hng Hdrag.
  destruct (handleDragEnd_change _ _ _ _ _ Hdrag)
    as (piece & final & _ & _ & _ & _ & ->).
  unfold checkWinCondition, withPieces. simpl.
  now rewrite find_goal_moved.
Qed.

(** * Gestures and the timer *)
(** * Gestures and the timer *)

Lemma Math_round_near (q : Q) (x : Z) :
  (inject_Z x - (1 # 2) <= q)%Q -> (q < inject_Z x + (1 # 2))%Q ->
  Math_round q = x.
Proof.
  intros Hlo Hhi. unfold Math_round. apply Z.le_antisymm.
  - apply Z.lt_succ_r. rewrite Zlt_Qlt.
    eapply Qle_lt_trans; [apply Qfloor_le|].
    destruct q as [n d].
    unfold Qlt, Qle, Qminus in *. unfold Qplus, Qopp, inject_Z in *.
    cbn [Qnum Qden] in *. lia.
  - rewrite <- (Qfloor_Z x). apply Qfloor_resp_le.
    destruct q as [n d].
    unfold Qlt, Qle, Qminus in *. unfold Qplus, Qopp, inject_Z in *.
    cbn [Qnum Qden] in *. lia.
Qed.

(** X6: a gesture started on a piece of the puzzle records that piece's
    position, and ended on the same puzzle it never throws; the target cell
    is [Math.round] of the position the drag has moved the piece to, on each
    axis; and when that position is within half a cell of the piece's own on
    both axes (the upper half cell excluded), the piece snaps back. *)
Theorem drag_gesture (puzzle : Puzzle.t) (id : Z) (dragging : Dragging)
    (newX newY : Q) :
  handleDragStart puzzle id = Some dragging ->
  (exists piece,
      piece ∈ Puzzle.pieces puzzle /\ Piece.id piece = id
      /\ dragging = mkDragging id (Piece.x piece) (Piece.y piece)
      /\ handleDragEnd_final puzzle dragging newX newY
         = Some (piece, resolveMove puzzle piece
                          (Math_round newX - Piece.x piece)
                          (Math_round newY - Piece.y piece)))
  /\ handleDragEnd puzzle dragging newX newY <> DragThrows
  /\ ((inject_Z (pieceStartX dragging) - (1 # 2) <= newX)%Q ->
      (newX < inject_Z (pieceStartX dragging) + (1 # 2))%Q ->
      (inject_Z (pieceStartY dragging) - (1 # 2) <= newY)%Q ->
      (newY < inject_Z (pieceStartY dragging) + (1 # 2))%Q ->
      handleDragEnd puzzle dragging newX newY = DragSnapBack).
Proof.
  unfold handleDragStart.
  destruct (List.find (fun p => Piece.id p =? id) (Puzzle.pieces puzzle))
    as [piece|] eqn:Hfind; [|discriminate].
  intros [= <-].
  assert (Hfinal : handleDragEnd_final puzzle
                     (mkDragging id (Piece.x piece) (Piece.y piece)) newX newY
                   = Some (piece, resolveMove puzzle piece
                                    (Math_round newX - Piece.x piece)
                                    (Math_round newY - Piece.y piece))).
  { unfold handleDragEnd_final, dragTarget. cbn [drag_id]. now rewrite Hfind. }
  split; [|split].
  - exists piece. apply find_some in Hfind as [Hin Hid].
    split; [now apply list_elem_of_In|]. split; [now apply Z.eqb_eq|].
    split; [reflexivity | exact Hfinal].
  - unfold handleDragEnd. rewrite Hfinal.
    destruct (resolveMove _ _ _ _) as [finalX finalY].
    destruct (negb _ || negb _); discriminate.
  - cbn [pieceStartX pieceStartY]. intros Hx1 Hx2 Hy1 Hy2.
    unfold handleDragEnd. rewrite Hfinal.
    rewrite (Math_round_near _ _ Hx1 Hx2), (Math_round_near _ _ Hy1 Hy2).
    rewrite !Z.sub_diag. unfold resolveMove. simpl. now rewrite !Z.eqb_refl.
Qed.

Lemma calculateTimeLeft_expired (now t : Z) :
  calculateTimeLeft now t <= 0 <-> 3600000 <= now - t.
Proof.
  unfold calculateTimeLeft, GAME_DURATION_SECONDS.
  pose proof (Z.div_mod (now - t) 1000 ltac:(lia)) as Hdm.
  pose proof (Z.mod_pos_bound (now - t) 1000 ltac:(lia)) as Hmod. lia.
Qed.

(** X8: the timer lets the game expire exactly from 3 600 000 ms after the
    start time on: before that the interval callback of [Timer] leaves the
    client as it is; from then on it is [handleTimeUp], which on a playing
    snapshot publishes that snapshot with phase [timesup] and nothing
    else. *)
Theorem timer_expiry_threshold (a : App) (s : SharedGameState) (t now : Z) :
  sharedState a = Some s -> view s = game ->
  (calculateTimeLeft now t <= 0 <-> 3600000 <= now - t)
  /\ (now - t < 3600000 -> Timer_interval now t handleTimeUp a = a)
  /\ (3600000 <= now - t ->
      Timer_interval now t handleTimeUp a = handleTimeUp a
      /\ sharedState (Timer_interval now t handleTimeUp a)
         = Some (mkShared timesup (team s) (puzzle s) (gameStartTime s))
      /\ publishedBy (Timer_interval now t handleTimeUp) a
         = [mkShared timesup (team s) (puzzle s) (gameStartTime s)]).
Proof.
  intros Hs Hv.
  pose proof (calculateTimeLeft_expired now t) as Hiff.
  split; [exact Hiff|]. split.
  - intros Hlt. unfold Timer_interval.
    destruct (Z.leb_spec (calculateTimeLeft now t) 0) as [Hle|_]; [|reflexivity].
    apply Hiff in Hle. lia.
  - intros Hge. unfold publishedBy, Timer_interval.
    destruct (Z.leb_spec (calculateTimeLeft now t) 0) as [_|Hgt];
      [|apply Hiff in Hge; lia].
    split; [reflexivity|].
    unfold handleTimeUp. rewrite Hs, Hv. simpl.
    split; [reflexivity | apply drop_app_length].
Qed.

(** X9: after a tick the timer shows a time that is not negative and that
    its minutes and seconds decompose exactly, with seconds below 60; when
    the clock is not before the start time it shows at most 60 minutes. *)
Theorem Timer_tick_display (now startTime : Z) :
  0 <= Timer_tick now startTime
  /\ 60 * Timer_minutes (Timer_tick now startTime)
     + Timer_seconds (Timer_tick now startTime) = Timer_tick now startTime
  /\ 0 <= Timer_seconds (Timer_tick now startTime) < 60
  /\ (startTime <= now ->
      Timer_tick now startTime <= GAME_DURATION_SECONDS
      /\ Timer_minutes (Timer_tick now startTime) <= 60).
Proof.
  assert (Hnn : 0 <= Timer_tick now startTime).
  { unfold Timer_tick. destruct (Z.leb_spec (calculateTimeLeft now startTime) 0); lia. }
  unfold Timer_minutes, Timer_seconds.
  rewrite (Z.rem_mod_nonneg _ 60 Hnn ltac:(lia)).
  pose proof (Z.div_mod (Timer_tick now startTime) 60 ltac:(lia)) as Hdm.
  pose proof (Z.mod_pos_bound (Timer_tick now startTime) 60 ltac:(lia)) as Hmod.
  split; [exact Hnn|]. split; [lia|]. split; [lia|].
  intros Hle.
  assert (Hup : Timer_tick now startTime <= GAME_DURATION_SECONDS).
  { unfold Timer_tick, calculateTimeLeft, GAME_DURATION_SECONDS.
    pose proof (Z.div_pos (now - startTime) 1000 ltac:(lia) ltac:(lia)).
    destruct (Z.leb_spec (3600 - (now - startTime) / 1000) 0); lia. }
  split; [exact Hup|]. unfold GAME_DURATION_SECONDS in Hup.
  apply Z.div_le_upper_bound; lia.
Qed.

(** * Handlers of the session: further properties *)

(** X10: a join-or-leave request of a logged-in player toggles that
    player's membership and nobody else's: a player outside the team is
    appended at its end, whatever the team's size, a member is removed;
    phase, puzzle, start time and the players' records are untouched. *)
Theorem handleJoinOrLeaveTeam_toggles (a : App) (cur : string)
    (s : SharedGameState) :
  loggedIn a = Some cur -> sharedState a = Some s ->
  exists newTeam,
    sharedState (handleJoinOrLeaveTeam false a)
    = Some (mkShared (view s) newTeam (puzzle s) (gameStartTime s))
    /\ (cur ∈ newTeam <-> cur ∉ team s)
    /\ (forall k, k <> cur -> (k ∈ newTeam <-> k ∈ team s))
    /\ (cur ∉ team s -> newTeam = team s ++ [cur])
    /\ players (handleJoinOrLeaveTeam false a) = players a.
Proof.
  intros Hcur Hs. unfold handleJoinOrLeaveTeam. rewrite Hcur, Hs.
  destruct (bool_decide (cur ∈ team s)) eqn:Hmem.
  - apply bool_decide_eq_true in Hmem.
    exists (filter (fun pId => pId ≠ cur) (team s)).
    split; [reflexivity|]. split; [|split; [|split; [|reflexivity]]].
    + rewrite list_elem_of_filter. split; [intros [Hne _]; congruence | contradiction].
    + intros k Hk. rewrite list_elem_of_filter. tauto.
    + contradiction.
  - apply bool_decide_eq_false in Hmem.
    exists (team s ++ [cur]).
    split; [reflexivity|]. split; [|split; [|split; [|reflexivity]]].
    + rewrite elem_of_app, list_elem_of_singleton. tauto.
    + intros k Hk. rewrite elem_of_app, list_elem_of_singleton. tauto.
    + reflexivity.
Qed.

Lemma filter_out_absent (cur : string) (tm : list string) :
  cur ∉ tm -> filter (fun pId => pId ≠ cur) tm = tm.
Proof.
  induction tm as [|x rest IH]; intros Hnin; [reflexivity|].
  rewrite filter_cons. apply not_elem_of_cons in Hnin as [Hne Hrest].
  rewrite decide_True by congruence. now rewrite IH.
Qed.

(** X11: joining and then leaving gives back the snapshot the player
    started from: the team is restored in its order. *)
Theorem join_then_leave_restores (a : App) (cur : string) (s : SharedGameState) :
  loggedIn a = Some cur -> sharedState a = Some s -> cur ∉ team s ->
  sharedState (handleJoinOrLeaveTeam false (handleJoinOrLeaveTeam false a)) = Some s
  /\ sharedState (handleJoinOrLeaveTeam true (handleJoinOrLeaveTeam false a)) = Some s.
Proof.
  intros Hcur Hs Hnin.
  assert (Hjoin : handleJoinOrLeaveTeam false a
                  = setSharedState
                      (Some (mkShared (view s) (team s ++ [cur]) (puzzle s) (gameStartTime s)))
                      (saveSharedState
                         (mkShared (view s) (team s ++ [cur]) (puzzle s) (gameStartTime s)) a)).
  { unfold handleJoinOrLeaveTeam. rewrite Hcur, Hs.
    now rewrite bool_decide_eq_false_2. }
  assert (Hback : filter (fun pId => pId ≠ cur) (team s ++ [cur]) = team s).
  { rewrite filter_app, filter_out_absent by assumption.
    rewrite filter_cons, decide_False by (intros H; now apply H).
    rewrite filter_nil. apply app_nil_r. }
  rewrite Hjoin. unfold handleJoinOrLeaveTeam at 1 2.
  change (loggedIn (setSharedState _ _)) with (loggedIn a). rewrite Hcur. simpl.
  rewrite bool_decide_eq_true_2
    by (apply elem_of_app; right; apply list_elem_of_here).
  rewrite Hback. destruct s; split; reflexivity.
Qed.

(** X12: logging in makes [id] the current player, remembers it as the
    last player and leaves the client on the loader.  A player with a record
    keeps it, streak included.  A player without one gets a record of streak
    0, written to storage too -- unless the id names a property that every
    object inherits ([constructor], [toString], ...): the lookup then finds
    the inherited property, and the player is logged in without a record.
    No other record and nothing of the shared session changes. *)
Theorem handleLogin_records (a : App) (id : string) :
  currentPlayerId (handleLogin id a) = Some id
  /\ lastPlayerStorage (handleLogin id a) = Some id
  /\ localView (handleLogin id a) = loading
  /\ (forall k, k <> id -> players (handleLogin id a) !! k = players a !! k)
  /\ (is_Some (players a !! id) ->
      players (handleLogin id a) = players a
      /\ playersStorage (handleLogin id a) = playersStorage a)
  /\ (players a !! id = None -> id ∉ objectPrototypeKeys ->
      players (handleLogin id a) !! id = Some (Player.mk id 0)
      /\ playersStorage (handleLogin id a) = players (handleLogin id a))
  /\ (players a !! id = None -> id ∈ objectPrototypeKeys ->
      players (handleLogin id a) = players a
      /\ playersStorage (handleLogin id a) = playersStorage a)
  /\ sharedState (handleLogin id a) = sharedState a
  /\ published (handleLogin id a) = published a.
Proof.
  unfold handleLogin, playersHas.
  destruct (players a !! id) as [p|] eqn:Hp; simpl.
  - split; [reflexivity|]. split; [reflexivity|]. split; [reflexivity|].
    split; [reflexivity|]. split; [intros _; split; reflexivity|].
    split; [discriminate|]. split; [discriminate|]. split; reflexivity.
  - destruct (bool_decide (id ∈ objectPrototypeKeys)) eqn:Hinh; simpl.
    + apply bool_decide_eq_true in Hinh.
      split; [reflexivity|]. split; [reflexivity|]. split; [reflexivity|].
      split; [reflexivity|].
      split; [intros [q Hq]; discriminate|].
      split; [intros _ Hn; contradiction|].
      split; [intros _ _; split; reflexivity|]. split; reflexivity.
    + apply bool_decide_eq_false in Hinh.
      split; [reflexivity|]. split; [reflexivity|]. split; [reflexivity|].
      split; [intros k Hk; now apply lookup_insert_ne|].
      split; [intros [q Hq]; discriminate|].
      split; [intros _ _; split; [apply lookup_insert_eq | reflexivity]|].
      split; [intros _ Hy; contradiction|]. split; reflexivity.
Qed.

(** X13: logging out takes the player out of the team, keeps the other
    members in their order, and leaves the client on the login screen; the
    players' records are untouched. *)
Theorem handleLogout_leaves_team (a : App) (cur : string) (s : SharedGameState) :
  loggedIn a = Some cur -> sharedState a = Some s ->
  sharedState (handleLogout a)
  = Some (mkShared (view s) (filter (fun pId => pId ≠ cur) (team s))
                   (puzzle s) (gameStartTime s))
  /\ (cur ∉ filter (fun pId => pId ≠ cur) (team s))
  /\ (forall k, k <> cur ->
        (k ∈ filter (fun pId => pId ≠ cur) (team s) <-> k ∈ team s))
  /\ renderView (handleLogout a) = LoginScreen
  /\ players (handleLogout a) = players a.
Proof.
  intros Hcur Hs. unfold handleLogout, handleJoinOrLeaveTeam.
  rewrite Hcur, Hs. simpl.
  split; [reflexivity|]. split; [|split; [|split; reflexivity]].
  - rewrite list_elem_of_filter. intros [Hne _]. congruence.
  - intros k Hk. rewrite list_elem_of_filter. tauto.
Qed.

(** X15: [handleWin] changes nothing of a client outside the playing phase
    and, called twice in a row, does what it does once: the streaks are not
    raised a second time. *)
Theorem handleWin_idempotent (a : App) :
  ((forall s, sharedState a = Some s -> view s <> game) -> handleWin a = a)
  /\ handleWin (handleWin a) = handleWin a.
Proof.
  split.
  - intros Hnp. unfold handleWin.
    destruct (sharedState a) as [s|] eqn:Hs; [|reflexivity].
    specialize (Hnp s eq_refl). destruct (view s); congruence.
  - unfold handleWin at 2.
    destruct (sharedState a) as [s|] eqn:Hs.
    + destruct (view s) eqn:Hv;
        unfold handleWin; rewrite ?Hs, ?Hv; reflexivity.
    + unfold handleWin. now rewrite Hs.
Qed.

Section Occurrences.

Variable f : Z -> Z.

Lemma forEachTeam_iter (tm : list string) :
  forall (m : gmap string Player.t) (k : string),
  forEachTeam f tm m !! k
  = Nat.iter (occurrences k tm) (withStreak f) <$> m !! k.
Proof.
  unfold forEachTeam, occurrences.
  induction tm as [|x rest IH]; intros m k; cbn [foldl].
  - rewrite filter_nil. simpl. now destruct (m !! k).
  - rewrite IH, updateStreak_lookup, filter_cons.
    destruct (decide (k = x)) as [->|Hne].
    + rewrite decide_True by reflexivity. cbn [length].
      destruct (m !! x) as [p|]; [|reflexivity]. simpl.
      f_equal. generalize (length (filter (fun x0 => x0 = x) rest)). intros n.
      symmetry. exact (Nat.iter_succ_r n (withStreak f) p).
    + rewrite decide_False by congruence. reflexivity.
Qed.

End Occurrences.

(** X22: [handleWin] raises the streak of a recorded player by the number
    of times the player's id occurs in the team (and so by nothing for a
    player outside it). *)
Theorem handleWin_adds_occurrences (a : App) (s : SharedGameState)
    (k : string) (p : Player.t) :
  sharedState a = Some s -> view s = game -> players a !! k = Some p ->
  players (handleWin a) !! k
  = Some (Player.mk (Player.id p)
                    (Player.streak p + Z.of_nat (occurrences k (team s)))).
Proof.
  intros Hs Hv Hp. unfold handleWin. rewrite Hs, Hv. simpl.
  rewrite forEachTeam_iter, Hp. simpl. f_equal.
  induction (occurrences k (team s)) as [|n IH].
  - simpl. destruct p; simpl. f_equal. lia.
  - rewrite Nat.iter_succ, IH. unfold withStreak. simpl. f_equal. lia.
Qed.

(** * Invariants of a client *)

Section ClientInvariant.

Variable P : App -> Prop.

Hypothesis P_publish : forall a newState,
  P a -> P (setSharedState (Some newState) (saveSharedState newState a)).
Hypothesis P_current : forall a c, P a -> P (setCurrentPlayerId c a).
Hypothesis P_localView : forall a v, P a -> P (setLocalView v a).
Hypothesis P_lastPlayer : forall a c, P a -> P (setLastPlayer c a).
Hypothesis P_storage : forall a stored, P a -> P (handleStorageChange stored a).
Hypothesis P_newPlayer : forall a id,
  P a -> players a !! id = None ->
  P (savePlayersToStorage (<[id := Player.mk id 0]> (players a))
       (setPlayers (<[id := Player.mk id 0]> (players a)) a)).
Hypothesis P_raise : forall a tm,
  P a ->
  P (savePlayersToStorage (forEachTeam (fun k => k + 1) tm (players a))
       (setPlayers (forEachTeam (fun k => k + 1) tm (players a)) a)).
Hypothesis P_zero : forall a tm,
  P a ->
  P (savePlayersToStorage (forEachTeam (fun _ => 0) tm (players a))
       (setPlayers (forEachTeam (fun _ => 0) tm (players a)) a)).

Lemma handleLogin_invariant (id : string) (a : App) : P a -> P (handleLogin id a).
Proof.
  intros Ha. unfold handleLogin, playersHas.
  apply P_localView, P_lastPlayer, P_current.
  destruct (players a !! id) eqn:Hid; [exact Ha|].
  destruct (bool_decide (id ∈ objectPrototypeKeys)); [exact Ha|].
  now apply P_newPlayer.
Qed.

Lemma handleJoinOrLeaveTeam_invariant (forceLeave : bool) (a : App) :
  P a -> P (handleJoinOrLeaveTeam forceLeave a).
Proof.
  intros Ha. unfold handleJoinOrLeaveTeam.
  destruct (loggedIn a); [|exact Ha].
  destruct (sharedState a); [|exact Ha]. now apply P_publish.
Qed.

Lemma handleLogout_invariant (a : App) : P a -> P (handleLogout a).
Proof.
  intros Ha. unfold handleLogout.
  apply P_localView, P_lastPlayer, P_current.
  now apply handleJoinOrLeaveTeam_invariant.
Qed.

Lemma handleStartGame_resume_invariant (captured : option SharedGameState)
    (gen : GenResult) (now : Z) (a : App) :
  P a -> P (handleStartGame_resume captured gen now a).
Proof.
  intros Ha. unfold handleStartGame_resume.
  destruct (generatePuzzle gen); [|now apply P_localView].
  destruct captured; [now apply P_publish | now apply P_localView].
Qed.

Lemma handleStartGame_invariant (gen : GenResult) (now : Z) (a : App) :
  P a -> P (handleStartGame gen now a).
Proof.
  intros Ha. unfold handleStartGame, handleStartGame_click.
  now apply handleStartGame_resume_invariant, P_localView.
Qed.

Lemma handleWin_invariant (a : App) : P a -> P (handleWin a).
Proof.
  intros Ha. unfold handleWin.
  destruct (sharedState a) as [s|]; [|exact Ha].
  destruct (view s); try exact Ha. apply P_publish. now apply P_raise.
Qed.

Lemma handleTimeUp_invariant (a : App) : P a -> P (handleTimeUp a).
Proof.
  intros Ha. unfold handleTimeUp.
  destruct (sharedState a) as [s|]; [|exact Ha].
  destruct (view s); try exact Ha. apply P_publish. now apply P_zero.
Qed.

Lemma handlePuzzleChange_invariant (newPuzzle : Puzzle.t) (a : App) :
  P a -> P (handlePuzzleChange newPuzzle a).
Proof.
  intros Ha. unfold handlePuzzleChange.
  destruct (sharedState a); [|exact Ha]. now apply P_publish.
Qed.

Lemma handleBackToLobby_invariant (a : App) : P a -> P (handleBackToLobby a).
Proof. intros Ha. exact (P_publish a lobbyState Ha). Qed.

Lemma dispatch_invariant (e : Event) (a : App) : P a -> P (dispatch e a).
Proof.
  intros Ha. unfold dispatch.
  assert (He : P (handleEvent e a)).
  { unfold handleEvent. destruct e; destruct (renderView a); try exact Ha;
      try (now apply P_storage).
    - unfold LoginScreen_submit. destruct (String.eqb id EmptyString); [exact Ha|].
      now apply handleLogin_invariant.
    - now apply P_localView.
    - now apply handleJoinOrLeaveTeam_invariant.
    - now apply handleLogout_invariant.
    - now apply P_localView.
    - unfold LobbyScreen_startButton. destruct (canStartGame tm); [|exact Ha].
      now apply handleStartGame_invariant.
    - unfold GameScreen_dragEnd.
      destruct (handleDragEnd pz dragging newX newY); try exact Ha.
      now apply handlePuzzleChange_invariant.
    - unfold Timer_interval.
      destruct (calculateTimeLeft now startTime <=? 0); [|exact Ha].
      now apply handleTimeUp_invariant.
    - now apply handleBackToLobby_invariant.
    - now apply handleBackToLobby_invariant. }
  unfold GameScreen_effect. destruct (renderView (handleEvent e a)); try exact He.
  unfold GameScreen_checkWin.
  destruct (checkWinCondition pz); [|exact He]. now apply handleWin_invariant.
Qed.

Lemma perform_invariant (act : Action) (a : App) : P a -> P (perform act a).
Proof.
  intros Ha. destruct act; simpl.
  - now apply handleJoinOrLeaveTeam_invariant.
  - destruct (sharedState a) as [s|]; [|exact Ha].
    unfold LobbyScreen_startButton. destruct (canStartGame (team s)); [|exact Ha].
    now apply handleStartGame_invariant.
  - destruct (sharedState a) as [s|]; [|exact Ha].
    destruct (puzzle s) as [pz|]; [|exact Ha].
    unfold GameScreen_dragEnd.
    destruct (handleDragEnd pz dragging newX newY); try exact Ha.
    now apply handlePuzzleChange_invariant.
  - destruct (sharedState a) as [s|]; [|exact Ha].
    destruct (puzzle s) as [pz|]; [|exact Ha].
    unfold GameScreen_checkWin.
    destruct (checkWinCondition pz); [|exact Ha]. now apply handleWin_invariant.
  - now apply handleTimeUp_invariant.
  - now apply handleBackToLobby_invariant.
Qed.

End ClientInvariant.


Lemma forEachTeam_ledgerOk (f : Z -> Z) (tm : list string) :
  (forall z, 0 <= z -> 0 <= f z) ->
  forall m, ledgerOk m -> ledgerOk (forEachTeam f tm m).
Proof.
  intros Hf. unfold forEachTeam.
  induction tm as [|x rest IH]; intros m Hm; cbn [foldl]; [exact Hm|].
  apply IH. intros k p. rewrite updateStreak_lookup.
  destruct (decide (k = x)) as [->|Hne]; [|apply Hm].
  destruct (m !! x) as [q|] eqn:Hq; [|discriminate].
  intros [= <-]. destruct (Hm x q Hq) as [Hid Hnn].
  unfold withStreak. simpl. split; [exact Hid | now apply Hf].
Qed.

Lemma ledgerOk_newPlayer (ps : gmap string Player.t) (id : string) :
  ledgerOk ps -> ledgerOk (<[id := Player.mk id 0]> ps).
Proof.
  intros Hok k p. destruct (decide (k = id)) as [->|Hne].
  - rewrite lookup_insert_eq. intros [= <-]. simpl. split; [reflexivity | lia].
  - rewrite lookup_insert_ne by congruence. apply Hok.
Qed.

(** X18: nothing spoils the ledger: when every record is filed under its
    own id with a streak that is not negative, the same holds after any
    event, after any transition that a component performs through the
    handlers, after a login and after a logout. *)
Theorem dispatch_keeps_ledgerOk (e : Event) (a : App) :
  ledgerOk (players a) ->
  ledgerOk (players (dispatch e a))
  /\ (forall act, ledgerOk (players (perform act a)))
  /\ (forall id, ledgerOk (players (handleLogin id a)))
  /\ ledgerOk (players (handleLogout a)).
Proof.
  intros Ha.
  split; [|split; [|split]]; [| intros act | intros id |];
    revert Ha;
    [ apply (dispatch_invariant (fun a => ledgerOk (players a)))
    | apply (perform_invariant (fun a => ledgerOk (players a)))
    | apply (handleLogin_invariant (fun a => ledgerOk (players a)))
    | apply (handleLogout_invariant (fun a => ledgerOk (players a))) ];
    simpl; try tauto;
    try (intros a0 id0 Hok Hnone; now apply ledgerOk_newPlayer);
    try (intros a0 tm Hok; apply forEachTeam_ledgerOk; [intros; lia | exact Hok]).
Qed.

(** * The client as the user meets it *)

Lemma dispatch_published (e : Event) (a : App) :
  published (dispatch e a) = published a.
Proof.
  rewrite dispatch_handleEvent.
  destruct (offeredBySwitch e) eqn:He;
    [now rewrite handleEvent_switch_only|].
  unfold handleEvent.
  destruct e; try discriminate He; destruct (renderView a); try reflexivity.
  unfold LoginScreen_submit, handleLogin.
  destruct (String.eqb id EmptyString); [reflexivity|].
  now destruct (playersHas (players a) id).
Qed.

Lemma App_run_published (es : list Event) (a : App) :
  published (App_run es a) = published a.
Proof.
  unfold App_run. revert a.
  induction es as [|e rest IH]; intros a; cbn [foldl]; [reflexivity|].
  now rewrite IH, dispatch_published.
Qed.

(** X16: the screens behind the switch on the shared view are never shown.
    [renderView] returns the login screen, the ranking or the loader
    whatever the client's state is, so the effect of the game screen never
    runs, the events that only the lobby, game, win and time-up screens
    offer (join or leave, logout, rankings, start, drag, timer tick, back to
    the lobby) leave the client as it is, and no event makes the client
    publish a snapshot. *)
Theorem switch_never_reached (a : App) :
  (renderView a = LoginScreen \/ renderView a = RankingScreen
   \/ renderView a = Loader)
  /\ GameScreen_effect a = a
  /\ (forall e, offeredBySwitch e = true -> dispatch e a = a)
  /\ (forall e, publishedBy (dispatch e) a = [])
  /\ (forall es, published (App_run es a) = published a).
Proof.
  split; [apply renderView_shown|]. split; [apply GameScreen_effect_idle|].
  split; [|split].
  - intros e He. rewrite dispatch_handleEvent. now apply handleEvent_switch_only.
  - intros e. unfold publishedBy. rewrite dispatch_published. apply drop_all.
  - intros es. apply App_run_published.
Qed.


(** X29: a start resumes on the snapshot it captured.  When the generator
    returns, [handleStartGame] publishes the game with the team of the
    snapshot the client held at the click, whatever the client holds by
    then: a snapshot that a storage event brought in while the generator
    ran, with the joins and leaves it records, is overwritten in storage
    and in the client. *)
Theorem start_resumes_on_captured_snapshot (captured : SharedGameState)
    (gen : GenResult) (now : Z) (pz : Puzzle.t) (a : App) :
  generatePuzzle gen = Some pz ->
  let started := mkShared game (team captured) (Some pz) (Some now) in
  publishedBy (handleStartGame_resume (Some captured) gen now) a = [started]
  /\ sharedState (handleStartGame_resume (Some captured) gen now a) = Some started
  /\ sharedStorage (handleStartGame_resume (Some captured) gen now a) = Some started
  /\ (forall stored,
        sharedStorage (handleStartGame_resume (Some captured) gen now
                         (handleStorageChange stored a)) = Some started)
  /\ (forall a0, sharedState a0 = Some captured ->
        handleStartGame gen now a0
        = handleStartGame_resume (Some captured) gen now (handleStartGame_click a0)).
Proof.
  intros Hgen started. unfold handleStartGame_resume, publishedBy.
  rewrite Hgen. simpl.
  split; [apply drop_app_length|]. split; [reflexivity|]. split; [reflexivity|].
  split; [reflexivity|].
  intros a0 Ha0. unfold handleStartGame, handleStartGame_resume.
  simpl. now rewrite Hgen, Ha0.
Qed.

(** * The session through the handlers *)

(** X14: the return to the lobby, which the win and time-up screens wire
    to their button.  [handleBackToLobby] publishes the fresh lobby snapshot
    -- empty team, no puzzle, no start time -- and nothing else, makes it the
    client's shared state, and keeps the players' records, streaks
    included, and the login.  The handler has no guard of its own: it does
    so from any snapshot.  On the lobby it leaves, a win or an expiry
    arriving late changes nothing. *)
Theorem back_to_lobby (a : App) :
  publishedBy handleBackToLobby a = [lobbyState]
  /\ sharedState (handleBackToLobby a) = Some lobbyState
  /\ sharedStorage (handleBackToLobby a) = Some lobbyState
  /\ players (handleBackToLobby a) = players a
  /\ playersStorage (handleBackToLobby a) = playersStorage a
  /\ currentPlayerId (handleBackToLobby a) = currentPlayerId a
  /\ handleWin (handleBackToLobby a) = handleBackToLobby a
  /\ handleTimeUp (handleBackToLobby a) = handleBackToLobby a.
Proof.
  unfold publishedBy, handleBackToLobby, resetSharedState, getSharedState. simpl.
  split; [apply drop_app_length|].
  repeat (split; [reflexivity|]). reflexivity.
Qed.

(** X30: [handlePuzzleChange] has no guard of its own.  Whatever the
    phase of the client's snapshot, it publishes that snapshot with the new
    puzzle.  On a snapshot that holds a puzzle -- the game screen is given
    the snapshot's puzzle -- this keeps puzzle and start time consistent with
    the phase; called on a lobby snapshot it would publish a lobby that
    holds a puzzle. *)
Theorem handlePuzzleChange_unguarded (a : App) (s : SharedGameState)
    (newPuzzle : Puzzle.t) :
  sharedState a = Some s ->
  publishedBy (handlePuzzleChange newPuzzle) a
  = [mkShared (view s) (team s) (Some newPuzzle) (gameStartTime s)]
  /\ sharedState (handlePuzzleChange newPuzzle a)
     = Some (mkShared (view s) (team s) (Some newPuzzle) (gameStartTime s))
  /\ players (handlePuzzleChange newPuzzle a) = players a
  /\ (is_Some (puzzle s) -> phaseConsistent s ->
      phaseConsistent (mkShared (view s) (team s) (Some newPuzzle) (gameStartTime s)))
  /\ (view s = lobby ->
      ~ phaseConsistent (mkShared (view s) (team s) (Some newPuzzle) (gameStartTime s))).
Proof.
  intros Hs. unfold publishedBy.
  rewrite (handlePuzzleChange_publishes newPuzzle a s Hs). simpl.
  split; [apply drop_app_length|]. split; [reflexivity|]. split; [reflexivity|].
  unfold phaseConsistent. simpl. split.
  - intros [pz Hpz] Hphase. destruct (view s).
    + destruct Hphase as [Hnone _]. congruence.
    + split; [eauto | apply Hphase].
    + split; [eauto | apply Hphase].
    + split; [eauto | apply Hphase].
  - intros -> [Hnone _]. discriminate Hnone.
Qed.


(** X26: the streak shown after the winning move.  For a player with a
    record who makes the winning move, the streak that the win screen is
    given is the player's streak raised by one when the player is in the
    team and the player's streak as it was otherwise: neither the end of
    the drag nor [handleWin] asks whether the player who moves belongs to
    the team. *)
Theorem winning_move_shows_streak (a : App) (s : SharedGameState)
    (cur : string) (p : Player.t) (pz newPuzzle : Puzzle.t)
    (dragging : Dragging) (newX newY : Q) :
  currentPlayerId a = Some cur -> sharedState a = Some s -> view s = game ->
  players a !! cur = Some p -> NoDup (team s) ->
  handleDragEnd pz dragging newX newY = DragPuzzleChange newPuzzle ->
  checkWinCondition newPuzzle = true ->
  view <$> sharedState
             (GameScreen_checkWin newPuzzle handleWin
                (GameScreen_dragEnd pz handlePuzzleChange dragging newX newY a))
  = Some win
  /\ WinScreen_streak
       (GameScreen_checkWin newPuzzle handleWin
          (GameScreen_dragEnd pz handlePuzzleChange dragging newX newY a))
     = if decide (cur ∈ team s) then Player.streak p + 1 else Player.streak p.
Proof.
  intros Hc Hs Hv Hp Hnd Hdrag Hwin.
  unfold GameScreen_dragEnd, GameScreen_checkWin. rewrite Hdrag, Hwin.
  unfold handlePuzzleChange. rewrite Hs. unfold handleWin. simpl. rewrite Hv.
  split; [reflexivity|].
  unfold WinScreen_streak. simpl. rewrite Hc.
  rewrite forEachTeam_lookup by assumption. rewrite Hp.
  destruct (decide (cur ∈ team s)); reflexivity.
Qed.

Lemma find_goal_moved_any (i fx fy : Z) (ps : list Piece.t) :
  Piece.width <$> List.find Piece.isGoal (map (movePiece i fx fy) ps)
  = Piece.width <$> List.find Piece.isGoal ps.
Proof.
  induction ps as [|p rest IH]; [reflexivity|]. cbn [map List.find].
  assert (Hg : Piece.isGoal (movePiece i fx fy p) = Piece.isGoal p)
    by (unfold movePiece; destruct (Piece.id p =? i); reflexivity).
  assert (Hw : Piece.width (movePiece i fx fy p) = Piece.width p)
    by (unfold movePiece; destruct (Piece.id p =? i); reflexivity).
  rewrite Hg. destruct (Piece.isGoal p); [simpl; now rewrite Hw | exact IH].
Qed.

(** X27: a move neither removes nor resizes the goal marker of the game
    screen: the puzzle published by [handleDragEnd] has a goal piece exactly
    when the puzzle before it has one, and of the same width. *)
Theorem move_keeps_goal_marker (puzzle newPuzzle : Puzzle.t)
    (dragging : Dragging) (newX newY : Q) :
  handleDragEnd puzzle dragging newX newY = DragPuzzleChange newPuzzle ->
  GameScreen_goalMarkerWidth newPuzzle = GameScreen_goalMarkerWidth puzzle.
Proof.
  intros Hdrag.
  destruct (handleDragEnd_change _ _ _ _ _ Hdrag)
    as (piece & final & _ & _ & _ & _ & ->).
  unfold GameScreen_goalMarkerWidth, withPieces. simpl.
  apply find_goal_moved_any.
Qed.

(** X24: in every reachable snapshot the team lists no player twice: a
    join appends a player only when the team does not hold the player yet,
    a leave only removes, and a start, a move, a win and an expiry keep the
    team. *)
Theorem reachable_team_duplicate_free (s : SharedGameState) :
  reachable s -> NoDup (team s).
Proof. intros H. exact (proj2 (reachable_snapshotInv s H)). Qed.

(** * The further properties at sample inputs *)

(** A 2x2 rectangle at the origin and a cell-sized piece at (1,1). *)
Lemma overlaps_iff_shared_cell_witness :
  exists cx cy, rectHolds 0 0 2 2 cx cy
                /\ coversCell cx cy (Piece.mk 2 1 1 1 1 false) = true.
Proof.
  apply (proj1 (overlaps_iff_shared_cell 0 0 2 2 (Piece.mk 2 1 1 1 1 false)
                  ltac:(lia) ltac:(simpl; lia) ltac:(simpl; lia) ltac:(simpl; lia))).
  reflexivity.
Defined.

(** The free cell (1,4) of the fallback board. *)
Lemma isOccupied_false_iff_witness :
  0 <= 1 /\ 0 <= 4 /\ 1 + 1 <= Puzzle.boardWidth fallbackPuzzle
  /\ 4 + 1 <= Puzzle.boardHeight fallbackPuzzle.
Proof.
  apply (proj1 (isOccupied_false_iff fallbackPuzzle 1 4 1 1 7)). reflexivity.
Defined.

(** Piece 9 of the fallback board dragged three cells to the right. *)
Lemma resolveMove_in_board_witness :
  0 <= (resolveMove fallbackPuzzle (Piece.mk 9 0 4 1 1 false) 3 0).1
  /\ 0 <= (resolveMove fallbackPuzzle (Piece.mk 9 0 4 1 1 false) 3 0).2
  /\ (resolveMove fallbackPuzzle (Piece.mk 9 0 4 1 1 false) 3 0).1 + 1 <= 4
  /\ (resolveMove fallbackPuzzle (Piece.mk 9 0 4 1 1 false) 3 0).2 + 1 <= 5.
Proof.
  apply (resolveMove_in_board fallbackPuzzle (Piece.mk 9 0 4 1 1 false) 3 0).
  reflexivity.
Defined.

Lemma fallbackPuzzle_wellFormed : wellFormed fallbackPuzzle.
Proof.
  split; [reflexivity|]. split; [reflexivity|].
  apply (bool_decide_unpack _). vm_compute. exact I.
Defined.

(** The fallback board after piece 9, at (0,4), was dragged to (2,4). *)
Lemma handleDragEnd_keeps_wellFormed_witness :
  wellFormed fallbackAfterMove
  /\ map Piece.id (Puzzle.pieces fallbackAfterMove)
     = map Piece.id (Puzzle.pieces fallbackPuzzle).
Proof.
  destruct (handleDragEnd_keeps_wellFormed fallbackPuzzle fallbackAfterMove
              (mkDragging 9 0 4) (2 # 1)%Q (4 # 1)%Q
              fallbackPuzzle_wellFormed eq_refl)
    as (Hwf & _ & _ & _ & Hids & _).
  split; [exact Hwf | exact Hids].
Defined.

(** Piece 9, at (0,4), dragged to (0.2, 3.8). *)
Lemma drag_gesture_witness :
  handleDragEnd fallbackPuzzle (mkDragging 9 0 4) (1 # 5)%Q (19 # 5)%Q
  = DragSnapBack.
Proof.
  apply (drag_gesture fallbackPuzzle 9 (mkDragging 9 0 4) (1 # 5)%Q (19 # 5)%Q
           eq_refl).
  - unfold Qle. simpl. lia.
  - unfold Qlt. simpl. lia.
  - unfold Qle. simpl. lia.
  - unfold Qlt. simpl. lia.
Defined.

(** Piece 9 is not the goal piece. *)
Lemma nongoal_move_keeps_win_condition_witness :
  checkWinCondition fallbackAfterMove = checkWinCondition fallbackPuzzle.
Proof.
  apply (nongoal_move_keeps_win_condition fallbackPuzzle fallbackAfterMove
           (mkDragging 9 0 4) (2 # 1)%Q (4 # 1)%Q); [|reflexivity].
  intros p Hp Hid. apply list_elem_of_In in Hp. simpl in Hp.
  repeat (destruct Hp as [<-|Hp]; [first [reflexivity | discriminate Hid]|]).
  destruct Hp.
Defined.

(** Four seconds and one hour into the sample game. *)
Lemma timer_expiry_threshold_witness :
  Timer_interval 5000 1000 handleTimeUp (clientOf "ana" playingState)
  = clientOf "ana" playingState
  /\ publishedBy (Timer_interval 3601000 1000 handleTimeUp)
       (clientOf "ana" playingState) = [expiredState].
Proof.
  destruct (timer_expiry_threshold (clientOf "ana" playingState) playingState
              1000 5000 eq_refl eq_refl) as (_ & Hbefore & _).
  destruct (timer_expiry_threshold (clientOf "ana" playingState) playingState
              1000 3601000 eq_refl eq_refl) as (_ & _ & Hafter).
  split; [apply Hbefore; lia|].
  destruct Hafter as (_ & _ & Hpub); [lia | exact Hpub].
Defined.

(** One minute into a game. *)
Lemma Timer_tick_display_witness :
  Timer_tick 61000 1000 <= GAME_DURATION_SECONDS
  /\ Timer_minutes (Timer_tick 61000 1000) <= 60.
Proof.
  apply (Timer_tick_display 61000 1000). lia.
Defined.

(** A third player joins a lobby of two. *)
Lemma handleJoinOrLeaveTeam_toggles_witness :
  exists newTeam,
    sharedState (handleJoinOrLeaveTeam false (clientOf "cy" twoPlayerLobby))
    = Some (mkShared lobby newTeam None None)
    /\ ("cy" ∈ newTeam <-> "cy" ∉ team twoPlayerLobby)
    /\ (forall k, k <> "cy" -> (k ∈ newTeam <-> k ∈ team twoPlayerLobby))
    /\ ("cy" ∉ team twoPlayerLobby -> newTeam = team twoPlayerLobby ++ ["cy"])
    /\ players (handleJoinOrLeaveTeam false (clientOf "cy" twoPlayerLobby))
       = players (clientOf "cy" twoPlayerLobby).
Proof.
  exact (handleJoinOrLeaveTeam_toggles (clientOf "cy" twoPlayerLobby) "cy"
           twoPlayerLobby eq_refl eq_refl).
Defined.

Lemma join_then_leave_restores_witness :
  sharedState (handleJoinOrLeaveTeam false
                 (handleJoinOrLeaveTeam false (clientOf "cy" twoPlayerLobby)))
  = Some twoPlayerLobby
  /\ sharedState (handleJoinOrLeaveTeam true
                    (handleJoinOrLeaveTeam false (clientOf "cy" twoPlayerLobby)))
     = Some twoPlayerLobby.
Proof.
  apply (join_then_leave_restores (clientOf "cy" twoPlayerLobby) "cy" twoPlayerLobby
           eq_refl eq_refl).
  apply (bool_decide_unpack _). vm_compute. exact I.
Defined.

(** A new player, a returning one, and one named after an inherited
    property. *)
Lemma handleLogin_records_witness :
  players (handleLogin "dee" (clientOf "ana" lobbyState)) !! "dee"
  = Some (Player.mk "dee" 0)
  /\ players (handleLogin "cy" (clientOf "ana" lobbyState))
     = players (clientOf "ana" lobbyState)
  /\ players (handleLogin "constructor" (clientOf "ana" lobbyState))
     = players (clientOf "ana" lobbyState).
Proof.
  destruct (handleLogin_records (clientOf "ana" lobbyState) "dee")
    as (_ & _ & _ & _ & _ & Hnew & _).
  destruct (handleLogin_records (clientOf "ana" lobbyState) "cy")
    as (_ & _ & _ & _ & Hold & _).
  destruct (handleLogin_records (clientOf "ana" lobbyState) "constructor")
    as (_ & _ & _ & _ & _ & _ & Hinh & _).
  split; [|split].
  - apply Hnew; [reflexivity|].
    apply (bool_decide_unpack _). vm_compute. exact I.
  - apply Hold. exists (Player.mk "cy" 5). reflexivity.
  - apply Hinh; [reflexivity | apply list_elem_of_here].
Defined.

Lemma handleLogout_leaves_team_witness :
  sharedState (handleLogout (clientOf "bo" twoPlayerLobby))
  = Some (mkShared lobby ["ana"] None None)
  /\ renderView (handleLogout (clientOf "bo" twoPlayerLobby)) = LoginScreen.
Proof.
  destruct (handleLogout_leaves_team (clientOf "bo" twoPlayerLobby) "bo"
              twoPlayerLobby eq_refl eq_refl) as (Hs & _ & _ & Hr & _).
  split; [exact Hs | exact Hr].
Defined.

Lemma handleWin_idempotent_witness :
  handleWin (clientOf "ana" wonState) = clientOf "ana" wonState
  /\ handleWin (handleWin (clientOf "ana" playingState))
     = handleWin (clientOf "ana" playingState).
Proof.
  split.
  - apply (proj1 (handleWin_idempotent (clientOf "ana" wonState))).
    intros s [= <-]. discriminate.
  - apply (proj2 (handleWin_idempotent (clientOf "ana" playingState))).
Defined.

(** A start request and a timer tick on a logged-in client. *)
Lemma switch_never_reached_witness :
  dispatch (EvStartGame GenThrows 1000) (clientOf "ana" sampleLobby)
  = clientOf "ana" sampleLobby
  /\ dispatch (EvTimerTick 3601000) (clientOf "ana" playingState)
     = clientOf "ana" playingState.
Proof.
  split.
  - apply (switch_never_reached (clientOf "ana" sampleLobby)). reflexivity.
  - apply (switch_never_reached (clientOf "ana" playingState)). reflexivity.
Defined.


Lemma samplePlayers_ledgerOk : ledgerOk samplePlayers.
Proof.
  unfold samplePlayers. intros k p.
  destruct (decide (k = "ana")) as [->|Ha];
    [rewrite lookup_insert_eq; intros [= <-]; simpl; split; [reflexivity | lia]|].
  rewrite lookup_insert_ne by congruence.
  destruct (decide (k = "bo")) as [->|Hb];
    [rewrite lookup_insert_eq; intros [= <-]; simpl; split; [reflexivity | lia]|].
  rewrite lookup_insert_ne by congruence.
  destruct (decide (k = "cy")) as [->|Hc];
    [rewrite lookup_insert_eq; intros [= <-]; simpl; split; [reflexivity | lia]|].
  rewrite lookup_insert_ne by congruence.
  rewrite lookup_empty. discriminate.
Defined.

Lemma dispatch_keeps_ledgerOk_witness :
  ledgerOk (players (dispatch (EvLogin "dee") (clientOf "ana" sampleLobby)))
  /\ ledgerOk (players (perform ActCheckWin
                          (clientOf "ana"
                             (mkShared game sampleTeam (Some oneMoveLeftSolved)
                                       (Some 1000))))).
Proof.
  split.
  - apply (dispatch_keeps_ledgerOk (EvLogin "dee") (clientOf "ana" sampleLobby)).
    exact samplePlayers_ledgerOk.
  - apply (dispatch_keeps_ledgerOk EvLogout
             (clientOf "ana"
                (mkShared game sampleTeam (Some oneMoveLeftSolved) (Some 1000)))).
    exact samplePlayers_ledgerOk.
Defined.

(** A team that lists "ana" twice. *)
Lemma handleWin_adds_occurrences_witness :
  players (handleWin (clientOf "ana"
             (mkShared game ["ana"; "bo"; "ana"] (Some fallbackPuzzle) (Some 1000))))
    !! "ana"
  = Some (Player.mk "ana" (2 + Z.of_nat (occurrences "ana" ["ana"; "bo"; "ana"]))).
Proof.
  exact (handleWin_adds_occurrences
           (clientOf "ana"
              (mkShared game ["ana"; "bo"; "ana"] (Some fallbackPuzzle) (Some 1000)))
           (mkShared game ["ana"; "bo"; "ana"] (Some fallbackPuzzle) (Some 1000))
           "ana" (Player.mk "ana" 2) eq_refl eq_refl eq_refl).
Defined.

Lemma reachable_team_duplicate_free_witness : NoDup (team expiredState).
Proof.
  apply reachable_team_duplicate_free. exact reachable_expiredState.
Defined.


(** "ana" makes the last move on [oneMoveLeft]. *)
Lemma winning_move_shows_streak_witness :
  view <$> sharedState
             (GameScreen_checkWin oneMoveLeftSolved handleWin
                (GameScreen_dragEnd oneMoveLeft handlePuzzleChange
                   winningDragging winningX winningY
                   (clientOf "ana" almostWonState)))
  = Some win
  /\ WinScreen_streak
       (GameScreen_checkWin oneMoveLeftSolved handleWin
          (GameScreen_dragEnd oneMoveLeft handlePuzzleChange
             winningDragging winningX winningY
             (clientOf "ana" almostWonState)))
     = if decide ("ana" ∈ team almostWonState) then 2 + 1 else 2.
Proof.
  apply (winning_move_shows_streak (clientOf "ana" almostWonState) almostWonState
           "ana" (Player.mk "ana" 2) oneMoveLeft oneMoveLeftSolved
           winningDragging winningX winningY);
    try reflexivity.
  apply (bool_decide_unpack _). vm_compute. exact I.
Defined.

Lemma move_keeps_goal_marker_witness :
  GameScreen_goalMarkerWidth fallbackAfterMove
  = GameScreen_goalMarkerWidth fallbackPuzzle.
Proof.
  apply (move_keeps_goal_marker fallbackPuzzle fallbackAfterMove
           (mkDragging 9 0 4) (2 # 1)%Q (4 # 1)%Q).
  reflexivity.
Defined.


(** A start clicked on the lobby of three resumes after the leave of "cy"
    has arrived: the game starts with "cy" in the team. *)
Lemma start_resumes_on_captured_snapshot_witness :
  sharedStorage
    (handleStartGame_resume (Some sampleLobby) GenThrows 1000
       (handleStorageChange (Some twoPlayerLobby) (clientOf "ana" sampleLobby)))
  = Some playingState.
Proof.
  destruct (start_resumes_on_captured_snapshot sampleLobby GenThrows 1000
              fallbackPuzzle (clientOf "ana" sampleLobby) eq_refl)
    as (_ & _ & _ & Hover & _).
  exact (Hover (Some twoPlayerLobby)).
Defined.

(** A move on the sample game, and the handler called on a lobby. *)
Lemma handlePuzzleChange_unguarded_witness :
  phaseConsistent (mkShared game sampleTeam (Some fallbackAfterMove) (Some 1000))
  /\ ~ phaseConsistent (mkShared lobby sampleTeam (Some fallbackPuzzle) None).
Proof.
  destruct (handlePuzzleChange_unguarded (clientOf "ana" playingState) playingState
              fallbackAfterMove eq_refl) as (_ & _ & _ & Hkeeps & _).
  destruct (handlePuzzleChange_unguarded (clientOf "ana" sampleLobby) sampleLobby
              fallbackPuzzle eq_refl) as (_ & _ & _ & _ & Hbreaks).
  split.
  - apply Hkeeps; [now exists fallbackPuzzle|].
    split; [now exists fallbackPuzzle | now exists 1000].
  - apply Hbreaks. reflexivity.
Defined.
